(** * smallsh: a shallow embedding of [smallsh.c]

    The shell of [smallsh.c] is embedded function by function.  C strings are
    lists of characters (the bytes before the terminating NUL), [int] and
    [pid_t] values are integers, the global variables of the program form the
    record [shell], and every function that touches them is a computation of
    the monad [M], which threads the globals and the trace of system-visible
    events and stops early when the process exits, is replaced by [execvp],
    blocks for ever or runs into undefined behaviour.  Answers of the
    operating system (the line read, [fork], [waitpid], [open], ...) are
    taken from an explicit record [os]. *)

From Stdlib Require Import ZArith List Ascii String Lia Bool DecimalString.
From stdpp Require Import base decidable list strings.

Local Open Scope Z_scope.

(** ** C strings *)

Abbreviation cstring := (list ascii).

(** A string literal of the source. *)
Definition lit (s : string) : cstring := list_ascii_of_string s.

Definition NL : ascii := ascii_of_nat 10.

(** [printf("%d", z)]. *)
Definition fmt_d (z : Z) : cstring := lit (NilZero.string_of_int (Z.to_int z)).

(** [strcmp(a, b) == 0]. *)
Definition streq (a b : cstring) : bool := bool_decide (a = b).

(** A C truth value. *)
Definition truthy (z : Z) : bool := negb (z =? 0).

(** ** Wait statuses

    The macros of [<sys/wait.h>] are not part of the sources; they are taken
    in the standard encoding (glibc's [bits/waitstatus.h]): the low seven
    bits of a status hold the terminating signal, bit 7 the core-dump flag,
    bits 8-15 the exit code or the stopping signal, and a low byte of [0x7f]
    marks a stopped child. *)
Module WaitStatus.

(** [(signed char) v] for [v] in the range of [int]. *)
Definition schar (v : Z) : Z := (v + 128) mod 256 - 128.

(** Modelled from the spec: [WEXITSTATUS], a macro of [<sys/wait.h>] absent
    from the sources, in the standard encoding: bits 8-15 of the status. *)
Definition WEXITSTATUS (s : Z) : Z := Z.shiftr (Z.land s 0xff00) 8.

(** Modelled from the spec: [WTERMSIG], a macro of [<sys/wait.h>] absent from
    the sources, in the standard encoding: the low seven bits. *)
Definition WTERMSIG (s : Z) : Z := Z.land s 0x7f.

(** Modelled from the spec: [WSTOPSIG], a macro of [<sys/wait.h>] absent from
    the sources, in the standard encoding: the same bits as the exit code. *)
Definition WSTOPSIG (s : Z) : Z := WEXITSTATUS s.

(** Modelled from the spec: [WIFEXITED], a macro of [<sys/wait.h>] absent
    from the sources, in the standard encoding: no terminating signal. *)
Definition WIFEXITED (s : Z) : bool := WTERMSIG s =? 0.

(** Modelled from the spec: [WIFSIGNALED], a macro of [<sys/wait.h>] absent
    from the sources, in the standard encoding,
    [((signed char) ((s & 0x7f) + 1) >> 1) > 0]: the low seven bits are
    neither 0 (exited) nor [0x7f] (stopped). *)
Definition WIFSIGNALED (s : Z) : bool :=
  0 <? Z.shiftr (schar (Z.land s 0x7f + 1)) 1.

(** Modelled from the spec: [WIFSTOPPED], a macro of [<sys/wait.h>] absent
    from the sources, in the standard encoding: a low byte of [0x7f]. *)
Definition WIFSTOPPED (s : Z) : bool := Z.land s 0xff =? 0x7f.

(** Modelled from the spec: [WCOREDUMP], a macro of [<sys/wait.h>] absent
    from the sources, in the standard encoding: bit 7. *)
Definition WCOREDUMP (s : Z) : bool := negb (Z.land s 0x80 =? 0).

(** The status the kernel builds for an exit code and a terminating signal. *)
Definition W_EXITCODE (ret sig : Z) : Z := Z.lor (Z.shiftl ret 8) sig.

(** The status the kernel builds for a stopping signal. *)
Definition W_STOPCODE (sig : Z) : Z := Z.lor (Z.shiftl sig 8) 0x7f.

Definition SIGKILL : Z := 9.
Definition SIGSEGV : Z := 11.
Definition SIGTSTP : Z := 20.

End WaitStatus.
Import WaitStatus.

(** ** System-visible events *)

Inductive oflag := O_RDONLY | O_WRONLY | O_CREAT | O_TRUNC.

Inductive handler := SIG_IGN | SIG_DFL | Handler_catchSIGTSTP.

Inductive signal := SIGINT | SIGTSTP_.

Inductive event :=
| Printf (text : cstring)                  (* printf, then fflush(stdout) *)
| Write (fd : Z) (bytes : cstring)         (* write(2) *)
| Fflush                                     (* fflush(stdout) on its own *)
| Perror (prefix : cstring)                (* perror(prefix), on stderr *)
| Chdir (path : option cstring)
| Kill (pid sig : Z)
| Sigaction (sig : signal) (h : handler)
| Open (path : option cstring) (flags : list oflag) (mode : option Z) (fd : Z)
| Dup2 (oldfd newfd : Z)
| Close (fd : Z).

(** ** Global variables *)

Record shell := {
  in_ : Z;                           (* [in] *)
  out : Z;
  isBackground : Z;
  inputFile : option cstring;        (* [NULL] is [None] *)
  outputFile : option cstring;
  SIGINT_handler : handler;          (* [SIGINT_action.sa_handler] *)
  SIGTSTP_handler : handler;         (* [SIGTSTP_action.sa_handler] *)
  bgTracker : list Z;                (* [pid_t bgTracker[250]] *)
  numBGProcesses : Z;
  status : Z;
  backgroundAllowed : Z;
  events : list event                (* what the process has done so far *)
}.

Definition bgTracker_size : nat := 250.

(** The globals as the loader leaves them, before [main] runs. *)
Definition initial_shell : shell := {|
  in_ := 0; out := 0; isBackground := 0;
  inputFile := None; outputFile := None;
  SIGINT_handler := SIG_DFL; SIGTSTP_handler := SIG_DFL;
  bgTracker := replicate bgTracker_size 0; numBGProcesses := 0;
  status := -5;
  backgroundAllowed := 1;
  events := []
|}.

Definition set_in (v : Z) (g : shell) : shell :=
  {| in_ := v; out := out g; isBackground := isBackground g;
     inputFile := inputFile g; outputFile := outputFile g;
     SIGINT_handler := SIGINT_handler g; SIGTSTP_handler := SIGTSTP_handler g;
     bgTracker := bgTracker g; numBGProcesses := numBGProcesses g;
     status := status g; backgroundAllowed := backgroundAllowed g;
     events := events g |}.

Definition set_out (v : Z) (g : shell) : shell :=
  {| in_ := in_ g; out := v; isBackground := isBackground g;
     inputFile := inputFile g; outputFile := outputFile g;
     SIGINT_handler := SIGINT_handler g; SIGTSTP_handler := SIGTSTP_handler g;
     bgTracker := bgTracker g; numBGProcesses := numBGProcesses g;
     status := status g; backgroundAllowed := backgroundAllowed g;
     events := events g |}.

Definition set_isBackground (v : Z) (g : shell) : shell :=
  {| in_ := in_ g; out := out g; isBackground := v;
     inputFile := inputFile g; outputFile := outputFile g;
     SIGINT_handler := SIGINT_handler g; SIGTSTP_handler := SIGTSTP_handler g;
     bgTracker := bgTracker g; numBGProcesses := numBGProcesses g;
     status := status g; backgroundAllowed := backgroundAllowed g;
     events := events g |}.

Definition set_inputFile (v : option cstring) (g : shell) : shell :=
  {| in_ := in_ g; out := out g; isBackground := isBackground g;
     inputFile := v; outputFile := outputFile g;
     SIGINT_handler := SIGINT_handler g; SIGTSTP_handler := SIGTSTP_handler g;
     bgTracker := bgTracker g; numBGProcesses := numBGProcesses g;
     status := status g; backgroundAllowed := backgroundAllowed g;
     events := events g |}.

Definition set_outputFile (v : option cstring) (g : shell) : shell :=
  {| in_ := in_ g; out := out g; isBackground := isBackground g;
     inputFile := inputFile g; outputFile := v;
     SIGINT_handler := SIGINT_handler g; SIGTSTP_handler := SIGTSTP_handler g;
     bgTracker := bgTracker g; numBGProcesses := numBGProcesses g;
     status := status g; backgroundAllowed := backgroundAllowed g;
     events := events g |}.

Definition set_SIGINT_handler (v : handler) (g : shell) : shell :=
  {| in_ := in_ g; out := out g; isBackground := isBackground g;
     inputFile := inputFile g; outputFile := outputFile g;
     SIGINT_handler := v; SIGTSTP_handler := SIGTSTP_handler g;
     bgTracker := bgTracker g; numBGProcesses := numBGProcesses g;
     status := status g; backgroundAllowed := backgroundAllowed g;
     events := events g |}.

Definition set_SIGTSTP_handler (v : handler) (g : shell) : shell :=
  {| in_ := in_ g; out := out g; isBackground := isBackground g;
     inputFile := inputFile g; outputFile := outputFile g;
     SIGINT_handler := SIGINT_handler g; SIGTSTP_handler := v;
     bgTracker := bgTracker g; numBGProcesses := numBGProcesses g;
     status := status g; backgroundAllowed := backgroundAllowed g;
     events := events g |}.

Definition set_bgTracker (v : list Z) (g : shell) : shell :=
  {| in_ := in_ g; out := out g; isBackground := isBackground g;
     inputFile := inputFile g; outputFile := outputFile g;
     SIGINT_handler := SIGINT_handler g; SIGTSTP_handler := SIGTSTP_handler g;
     bgTracker := v; numBGProcesses := numBGProcesses g;
     status := status g; backgroundAllowed := backgroundAllowed g;
     events := events g |}.

Definition set_numBGProcesses (v : Z) (g : shell) : shell :=
  {| in_ := in_ g; out := out g; isBackground := isBackground g;
     inputFile := inputFile g; outputFile := outputFile g;
     SIGINT_handler := SIGINT_handler g; SIGTSTP_handler := SIGTSTP_handler g;
     bgTracker := bgTracker g; numBGProcesses := v;
     status := status g; backgroundAllowed := backgroundAllowed g;
     events := events g |}.

Definition set_status (v : Z) (g : shell) : shell :=
  {| in_ := in_ g; out := out g; isBackground := isBackground g;
     inputFile := inputFile g; outputFile := outputFile g;
     SIGINT_handler := SIGINT_handler g; SIGTSTP_handler := SIGTSTP_handler g;
     bgTracker := bgTracker g; numBGProcesses := numBGProcesses g;
     status := v; backgroundAllowed := backgroundAllowed g;
     events := events g |}.

Definition set_backgroundAllowed (v : Z) (g : shell) : shell :=
  {| in_ := in_ g; out := out g; isBackground := isBackground g;
     inputFile := inputFile g; outputFile := outputFile g;
     SIGINT_handler := SIGINT_handler g; SIGTSTP_handler := SIGTSTP_handler g;
     bgTracker := bgTracker g; numBGProcesses := numBGProcesses g;
     status := status g; backgroundAllowed := v;
     events := events g |}.

Definition set_events (v : list event) (g : shell) : shell :=
  {| in_ := in_ g; out := out g; isBackground := isBackground g;
     inputFile := inputFile g; outputFile := outputFile g;
     SIGINT_handler := SIGINT_handler g; SIGTSTP_handler := SIGTSTP_handler g;
     bgTracker := bgTracker g; numBGProcesses := numBGProcesses g;
     status := status g; backgroundAllowed := backgroundAllowed g;
     events := v |}.

(** ** The monad of shell computations *)

Inductive result (A : Type) : Type :=
| Ret (a : A)                                  (* the function returns [a] *)
| Exited (code : Z)                            (* [exit(code)] *)
| Execed (file : cstring) (argv : list cstring) (* [execvp] took over *)
| Blocked                                      (* a loop that does not end *)
| Undefined.                                   (* a store outside an array *)
Arguments Ret {A} a.
Arguments Exited {A} code.
Arguments Execed {A} file argv.
Arguments Blocked {A}.
Arguments Undefined {A}.

Definition M (A : Type) : Type := shell -> result A * shell.

Definition ret {A} (a : A) : M A := fun g => (Ret a, g).

Definition bind {A B} (c : M A) (k : A -> M B) : M B := fun g =>
  match c g with
  | (Ret a, g') => k a g'
  | (Exited code, g') => (Exited code, g')
  | (Execed f av, g') => (Execed f av, g')
  | (Blocked, g') => (Blocked, g')
  | (Undefined, g') => (Undefined, g')
  end.

Notation "x <- c ;; k" := (bind c (fun x => k))
  (at level 100, c at next level, right associativity).
Notation "c ;;; k" := (bind c (fun _ => k))
  (at level 100, right associativity).

Definition get : M shell := fun g => (Ret g, g).
Definition modify (f : shell -> shell) : M unit := fun g => (Ret tt, f g).
Definition emit (e : event) : M unit :=
  modify (fun g => set_events (events g ++ [e]) g).
Definition exit_ (code : Z) : M unit := fun g => (Exited code, g).
Definition execed (file : cstring) (argv : list cstring) : M unit :=
  fun g => (Execed file argv, g).
Definition blocked {A} : M A := fun g => (Blocked, g).
Definition undefined {A} : M A := fun g => (Undefined, g).
Definition when (b : bool) (c : M unit) : M unit := if b then c else ret tt.

(** [printf(...); fflush(stdout);] *)
Definition printf (text : cstring) : M unit := emit (Printf text).
Definition perror (prefix : string) : M unit := emit (Perror (lit prefix)).

Definition EXIT_SUCCESS : Z := 0.
Definition EXIT_FAILURE : Z := 1.

(** ** Answers of the operating system

    One record per iteration of the main loop. *)

Inductive wait_result :=
| WaitStatus (s : Z)      (* [waitpid] stored [s] in [status] *)
| WaitError.              (* [waitpid] returned -1 and stored nothing *)

Record os := {
  os_sigtstp : nat;                    (* SIGTSTP deliveries while [getline] waits *)
  os_getline : cstring;                (* the line [getline] stored *)
  os_getline_cap : nat;                (* size of the buffer [getline] allocated *)
  os_getpid : Z;
  os_getenv_HOME : option cstring;
  os_chdir : option cstring -> Z;
  os_fork : Z;
  os_waitpid : list wait_result;       (* answers to the foreground [waitpid]s *)
  os_waitpid_nohang : nat -> Z -> Z * Z;
    (* [waitpid(bgProcesses[i], &childExitMethod, WNOHANG)]: the value returned
       and the content of [childExitMethod] after the call *)
  os_open : option cstring -> list oflag -> Z;
  os_execvp_ok : bool
}.

(** ** Built-in commands *)

Definition chdir (o : os) (path : option cstring) : M Z :=
  emit (Chdir path) ;;; ret (os_chdir o path).

Definition shell_cd (o : os) (args : list cstring) : M Z :=
  match args !! 1%nat with
  | None =>
      r <- chdir o (os_getenv_HOME o) ;;
      when (negb (r =? 0)) (perror "smallsh")
  | Some a =>
      if streq a (lit "~") then
        r <- chdir o (os_getenv_HOME o) ;;
        when (negb (r =? 0)) (perror "smallsh")
      else
        r <- chdir o (Some a) ;;
        when (negb (r =? 0)) (perror "smallsh")
  end ;;;
  ret 1.

(** [for (i = 0; i < size; i++) kill(bgProcesses[i], SIGKILL);] with [n]
    iterations left. *)
Fixpoint kill_loop (bgProcesses : list Z) (i n : nat) : M unit :=
  match n with
  | O => ret tt
  | S n' =>
      match bgProcesses !! i with
      | Some p => emit (Kill p SIGKILL) ;;; kill_loop bgProcesses (S i) n'
      | None => undefined
      end
  end.

Definition kill_processes (size : Z) (bgProcesses : list Z) : M unit :=
  kill_loop bgProcesses 0 (Z.to_nat size).

Definition shell_exit (args : list cstring) : M Z :=
  g <- get ;;
  kill_processes (numBGProcesses g) (bgTracker g) ;;;
  ret 0.

Definition shell_status (args : list cstring) : M Z :=
  g <- get ;;
  (if WIFEXITED (status g) then
     printf (lit "exit value " ++ fmt_d (WEXITSTATUS (status g)) ++ [NL])
   else if WIFSIGNALED (status g) then
     printf (lit "terminated by signal " ++ fmt_d (WTERMSIG (status g)) ++ [NL])
   else ret tt) ;;;
  ret 1.

Definition builtin_str : list cstring := [lit "cd"; lit "exit"; lit "status"].

Definition builtin_func (o : os) : list (list cstring -> M Z) :=
  [shell_cd o; shell_exit; shell_status].

Definition shell_num_builtins : nat := length builtin_str.

(** ** Background registry *)

Fixpoint background_check_loop (o : os) (bgProcesses : list Z) (i n : nat)
  : M unit :=
  match n with
  | O => ret tt
  | S n' =>
      match bgProcesses !! i with
      | None => undefined
      | Some p =>
          let '(wpid, childExitMethod) := os_waitpid_nohang o i p in
          when (wpid =? p)
            (if WIFEXITED childExitMethod then
               printf (lit "background pid " ++ fmt_d wpid ++ lit " is done: exit value "
                       ++ fmt_d (WEXITSTATUS childExitMethod) ++ [NL])
             else if WIFSIGNALED childExitMethod then
               printf (lit "background pid " ++ fmt_d wpid
                       ++ lit " is done: terminated by signal "
                       ++ fmt_d (WTERMSIG childExitMethod) ++ [NL])
             else ret tt) ;;;
          background_check_loop o bgProcesses (S i) n'
      end
  end.

Definition background_check (o : os) (size : Z) (bgProcesses : list Z) : M unit :=
  background_check_loop o bgProcesses 0 (Z.to_nat size).

(** [bgTracker[numBGProcesses++] = pid;] *)
Definition bgTracker_store (pid : Z) : M unit :=
  g <- get ;;
  let i := numBGProcesses g in
  if (0 <=? i) && (i <? Z.of_nat bgTracker_size) then
    modify (set_bgTracker (<[Z.to_nat i := pid]> (bgTracker g))) ;;;
    modify (set_numBGProcesses (i + 1))
  else undefined.

(** ** The SIGTSTP handler *)

Definition NUL : ascii := ascii_of_nat 0.
Definition STDOUT_FILENO : Z := 1.

(** [write(fd, buf, count)] from a string literal, an array of
    [strlen + 1] bytes. *)
Definition write (fd : Z) (buf : cstring) (count : nat) : M unit :=
  if (count <=? length buf + 1)%nat then emit (Write fd (take count (buf ++ [NUL])))
  else undefined.

Definition message_entering : cstring :=
  [NL] ++ lit "Entering foreground-only mode (& is now ignored)" ++ [NL] ++ lit ": ".

Definition message_exiting : cstring :=
  [NL] ++ lit "Exiting foreground-only mode" ++ [NL] ++ lit ": ".

Definition catchSIGTSTP (signo : Z) : M unit :=
  g <- get ;;
  if backgroundAllowed g =? 1 then
    write STDOUT_FILENO message_entering 52 ;;;
    emit Fflush ;;;
    modify (set_backgroundAllowed 0)
  else if backgroundAllowed g =? 0 then
    write STDOUT_FILENO message_exiting 32 ;;;
    emit Fflush ;;;
    modify (set_backgroundAllowed 1)
  else ret tt.

(** ** Reading a line and expanding [$$] *)

Definition BUFFER_SIZE : nat := 4096.

(** [strstr(s, needle)]: the offset of the first occurrence. *)
Fixpoint strstr (s needle : cstring) : option nat :=
  if streq (take (length needle) s) needle then Some 0%nat
  else match s with
       | [] => None
       | _ :: s' => S <$> strstr s' needle
       end.

(** [snprintf(pid, size, "%d", z)]. *)
Definition snprintf_d (size : nat) (z : Z) : cstring := take (size - 1) (fmt_d z).

(** The [while] loop of [shell_read_line]; [p] is the offset [p - line],
    [cap] the size of the buffer behind [line]. *)
Fixpoint expand_loop (fuel cap : nat) (pid line : cstring) (p : nat)
  : result cstring :=
  match strstr (drop p line) (lit "$$") with
  | None => Ret line
  | Some k =>
      match fuel with
      | O => Blocked
      | S fuel' =>
          let q := (p + k)%nat in
          (* strncpy(buffer, line, p-line); buffer[p-line] = '\0'; *)
          let buffer := take q line in
          (* strcat(buffer, pid); *)
          let buffer := buffer ++ pid in
          (* strcat(buffer, p+strlen("$$")); *)
          let buffer := buffer ++ drop (q + 2) line in
          if (length buffer + 1 <=? BUFFER_SIZE)%nat then
            (* strcpy(line, buffer); p++; *)
            if (length buffer + 1 <=? cap)%nat then
              expand_loop fuel' cap pid buffer (q + 1)
            else Undefined
          else Undefined
      end
  end.

Fixpoint deliver_SIGTSTP (n : nat) : M unit :=
  match n with
  | O => ret tt
  | S n' => catchSIGTSTP SIGTSTP ;;; deliver_SIGTSTP n'
  end.

(** The line [shell_read_line] returns, when the loop comes to an end. *)
Definition expanded_line (o : os) : result cstring :=
  let line := os_getline o in
  let pid := snprintf_d 10 (os_getpid o) in
  expand_loop (length line) (os_getline_cap o) pid line 0.

Definition shell_read_line (o : os) : M cstring :=
  deliver_SIGTSTP (os_sigtstp o) ;;;
  match expanded_line o with
  | Ret l => ret l
  | Undefined => undefined
  | _ => blocked
  end.

(** ** Splitting a line into tokens *)

Definition TOK_BUFFSIZE : nat := 64.

(** [" \t\r\n\a"] *)
Definition TOK_DELIM : cstring :=
  [" "%char; ascii_of_nat 9; ascii_of_nat 13; ascii_of_nat 10; ascii_of_nat 7].

Definition is_delim (c : ascii) : bool := bool_decide (c ∈ TOK_DELIM).

Fixpoint skip_delims (s : cstring) : cstring :=
  match s with
  | c :: s' => if is_delim c then skip_delims s' else s
  | [] => []
  end.

(** The token at the head of [s] and what follows its closing delimiter. *)
Fixpoint scan_token (s : cstring) : cstring * cstring :=
  match s with
  | c :: s' =>
      if is_delim c then ([], s')
      else let '(t, r) := scan_token s' in (c :: t, r)
  | [] => ([], [])
  end.

(** One call of [strtok] on the saved position [save]: [None] is [NULL]. *)
Definition strtok (save : cstring) : option (cstring * cstring) :=
  match skip_delims save with
  | [] => None
  | s => Some (scan_token s)
  end.

(** The tokens successive calls of [strtok] return before [NULL]. *)
Fixpoint strtok_all (fuel : nat) (save : cstring) : list cstring :=
  match fuel with
  | O => []
  | S fuel' =>
      match strtok save with
      | None => []
      | Some (t, save') => t :: strtok_all fuel' save'
      end
  end.

Definition strtok_tokens (line : cstring) : list cstring :=
  strtok_all (S (length line)) line.

(** The [while (token != NULL)] loop of [shell_split_line] over the tokens
    [strtok] still has to return; [tokens] is the array filled so far
    ([position] is its length) and [bufsize] its allocated size.
    [malloc] and [realloc] are taken to succeed. *)
Fixpoint split_loop (rest : list cstring) (tokens : list cstring) (bufsize : nat)
    (g : shell) : list cstring * nat * shell :=
  match rest with
  | [] => (tokens, bufsize, g)
  | token :: rest' =>
      let bufsize :=
        if (bufsize <=? length tokens)%nat then (bufsize + TOK_BUFFSIZE)%nat
        else bufsize in
      if streq token (lit ">") then
        let g := set_out 1 g in
        match rest' with
        | [] => (tokens, bufsize, set_outputFile None g)
        | file :: rest'' =>
            split_loop rest'' tokens bufsize (set_outputFile (Some file) g)
        end
      else if streq token (lit "<") then
        let g := set_in 1 g in
        match rest' with
        | [] => (tokens, bufsize, set_inputFile None g)
        | file :: rest'' =>
            split_loop rest'' tokens bufsize (set_inputFile (Some file) g)
        end
      else split_loop rest' (tokens ++ [token]) bufsize g
  end.

(** The argument vector is returned without its closing [NULL]. *)
Definition shell_split_line (line : cstring) : M (list cstring) :=
  modify (set_isBackground 0) ;;;
  g <- get ;;
  let '(tokens, bufsize, g') := split_loop (strtok_tokens line) [] TOK_BUFFSIZE g in
  modify (fun _ => g') ;;;
  if match last tokens with Some t => streq t (lit "&") | None => false end then
    (* tokens[--position] = NULL; *)
    when (truthy (backgroundAllowed g')) (modify (set_isBackground 1)) ;;;
    ret (removelast tokens)
  else
    (* tokens[position] = NULL; *)
    if (length tokens <? bufsize)%nat then ret tokens else undefined.

(** ** Executing a command *)

(** [strchr(s, c) != NULL] *)
Definition strchr (s : cstring) (c : ascii) : bool := bool_decide (c ∈ s).

Definition sigaction (sig : signal) (h : handler) : M unit := emit (Sigaction sig h).

Definition open_ (o : os) (path : option cstring) (flags : list oflag)
    (mode : option Z) : M Z :=
  let fd := os_open o path flags in
  emit (Open path flags mode fd) ;;; ret fd.

Definition dup2 (oldfd newfd : Z) : M unit := emit (Dup2 oldfd newfd).

Definition dev_null : cstring := lit "/dev/null".

(** The octal constant [0644]. *)
Definition mode_0644 : Z := 6 * 64 + 4 * 8 + 4.

(** The [do ... while] around [waitpid(pid, &status, WUNTRACED)]. *)
Fixpoint wait_loop (answers : list wait_result) : M unit :=
  match answers with
  | [] => blocked
  | w :: answers' =>
      match w with
      | WaitStatus s => modify (set_status s)
      | WaitError => ret tt
      end ;;;
      g <- get ;;
      if negb (WIFEXITED (status g)) && negb (WIFSIGNALED (status g))
      then wait_loop answers'
      else ret tt
  end.

(** The code the child runs after [fork]; it never returns. *)
Definition shell_launch_child (o : os) (args : list cstring) : M unit :=
  modify (set_SIGTSTP_handler SIG_IGN) ;;;
  sigaction SIGTSTP_ SIG_IGN ;;;
  g <- get ;;
  when (negb (truthy (isBackground g)))
    (modify (set_SIGINT_handler SIG_DFL) ;;; sigaction SIGINT SIG_DFL) ;;;
  when (in_ g =? 1)
    (inputFD <- open_ o (inputFile g) [O_RDONLY] None ;;
     when (inputFD =? -1) (perror "input file open()" ;;; exit_ 1) ;;;
     dup2 inputFD 0) ;;;
  when (out g =? 1)
    (outputFD <- open_ o (outputFile g) [O_WRONLY; O_CREAT; O_TRUNC] (Some mode_0644) ;;
     when (outputFD =? -1) (perror "output file open()" ;;; exit_ 1) ;;;
     dup2 outputFD 1) ;;;
  when (truthy (isBackground g) && negb (truthy (in_ g)))
    (inputFD <- open_ o (Some dev_null) [O_RDONLY] None ;;
     when (inputFD =? -1) (perror "input file open()" ;;; exit_ 1) ;;;
     dup2 inputFD 0) ;;;
  when (truthy (isBackground g) && negb (truthy (out g)))
    (outputFD <- open_ o (Some dev_null) [O_WRONLY; O_CREAT; O_TRUNC] (Some mode_0644) ;;
     when (outputFD =? -1) (perror "output file open()" ;;; exit_ 1) ;;;
     dup2 outputFD 1) ;;;
  match args with
  | file :: _ =>
      if os_execvp_ok o then execed file args else perror "smallsh"
  | [] => perror "smallsh"
  end ;;;
  exit_ EXIT_FAILURE.

(** The parent's branch: [pid] is the child. *)
Definition shell_launch_parent (o : os) (pid : Z) : M unit :=
  g <- get ;;
  if truthy (isBackground g) then
    printf (lit "background pid is " ++ fmt_d pid ++ [NL]) ;;;
    bgTracker_store pid
  else
    wait_loop (os_waitpid o) ;;;
    g <- get ;;
    when (WIFSIGNALED (status g))
      (printf (lit "terminated by signal " ++ fmt_d (status g) ++ [NL])).

Definition shell_launch (o : os) (args : list cstring) : M Z :=
  let pid := os_fork o in
  let inputFD := -5 in
  let outputFD := -5 in
  (if pid =? 0 then shell_launch_child o args
   else if pid <? 0 then perror "smallsh"
   else shell_launch_parent o pid) ;;;
  (* only the child assigns the descriptors, and it does not come here *)
  when (negb (inputFD =? -5)) (emit (Close inputFD)) ;;;
  when (negb (outputFD =? -5)) (emit (Close outputFD)) ;;;
  ret 1.

(** Where [shell_execute] sends an argument vector. *)
Inductive target :=
| NoAction                 (* [return 1] at once *)
| Builtin (i : nat)        (* the call through [builtin_func[i]] *)
| Launch.                  (* [shell_launch(args)] *)

(** [for (i = 0; i < num_builtins; i++) if (strcmp(name, builtin_str[i]) == 0)] *)
Fixpoint find_builtin (name : cstring) (strs : list cstring) (i : nat) : option nat :=
  match strs with
  | [] => None
  | s :: strs' => if streq name s then Some i else find_builtin name strs' (S i)
  end.

Definition dispatch (args : list cstring) : target :=
  match args with
  | [] => NoAction
  | arg0 :: _ =>
      if strchr arg0 "#"%char then NoAction
      else match find_builtin arg0 (take shell_num_builtins builtin_str) 0 with
           | Some i => Builtin i
           | None => Launch
           end
  end.

Definition shell_execute (o : os) (args : list cstring) : M Z :=
  match dispatch args with
  | NoAction => ret 1
  | Builtin i =>
      match builtin_func o !! i with
      | Some f => f args
      | None => undefined
      end
  | Launch => shell_launch o args
  end.

(** ** The main loop *)

(** The body of the [do ... while (shell_active)] loop up to the parsed
    argument vector. *)
Definition shell_loop_parse (o : os) : M (list cstring) :=
  modify (set_in 0) ;;;
  modify (set_out 0) ;;;
  g <- get ;;
  background_check o (numBGProcesses g) (bgTracker g) ;;;
  printf (lit ": ") ;;;
  line <- shell_read_line o ;;
  shell_split_line line.

Definition shell_loop_body (o : os) : M Z :=
  args <- shell_loop_parse o ;;
  shell_execute o args.

(** The loop over the answers of the system, one record per iteration; when
    they run out the shell is waiting for its next line. *)
Fixpoint shell_loop (script : list os) : M unit :=
  match script with
  | [] => blocked
  | o :: script' =>
      shell_active <- shell_loop_body o ;;
      if truthy shell_active then shell_loop script' else ret tt
  end.

Definition main (script : list os) : M Z :=
  modify (set_SIGINT_handler SIG_IGN) ;;;
  modify (set_SIGTSTP_handler Handler_catchSIGTSTP) ;;;
  sigaction SIGINT SIG_IGN ;;;
  sigaction SIGTSTP_ Handler_catchSIGTSTP ;;;
  shell_loop script ;;;
  ret EXIT_SUCCESS.

(** ** Notions used to state the properties *)

(** The answers of the system when the user enters [echo] and forty markers
    [$$] in a row: a line of 86 characters with its newline, for which
    [getline] has its least buffer, of 120 bytes. *)
Definition os_many_markers : os := {|
  os_sigtstp := 0;
  os_getline := lit "echo " ++ concat (replicate 40 (lit "$$")) ++ [NL];
  os_getline_cap := 120;
  os_getpid := 1234; os_getenv_HOME := None; os_chdir := fun _ => 0;
  os_fork := 4321;
  os_waitpid := [WaitStatus (W_EXITCODE 0 0)];
  os_waitpid_nohang := fun _ _ => (0, 0);
  os_open := fun _ _ => 3; os_execvp_ok := true |}.

(** The relation [R] holds between the globals before and after [c],
    whatever way [c] ends. *)
Definition keeps (R : shell -> shell -> Prop) {A} (c : M A) : Prop :=
  forall g, R g (snd (c g)).

(** The test that ends the foreground wait. *)
Definition ends_wait (s : Z) : bool := WIFEXITED s || WIFSIGNALED s.

(** The answers of the system for a foreground child that dies of SIGSEGV and
    leaves a core file: [waitpid] stores [0x80 | 11 = 139]. *)
Definition os_segfault : os := {|
  os_sigtstp := 0; os_getline := lit "./crash" ++ [NL]; os_getline_cap := 120;
  os_getpid := 1234; os_getenv_HOME := None; os_chdir := fun _ => 0;
  os_fork := 4321;
  os_waitpid := [WaitStatus (Z.lor 0x80 (W_EXITCODE 0 SIGSEGV))];
  os_waitpid_nohang := fun _ _ => (0, 0);
  os_open := fun _ _ => 3; os_execvp_ok := true |}.

(** The answers of the system when the user types [sleep 100 &] and [fork]
    returns [pid]; no background child has ended. *)
Definition os_sleep_bg (pid : Z) : os := {|
  os_sigtstp := 0; os_getline := lit "sleep 100 &" ++ [NL]; os_getline_cap := 120;
  os_getpid := 1234; os_getenv_HOME := None; os_chdir := fun _ => 0;
  os_fork := pid;
  os_waitpid := [];
  os_waitpid_nohang := fun _ _ => (0, 0);
  os_open := fun _ _ => 3; os_execvp_ok := true |}.

(** A session of [n] such commands, the children being 1000, 1001, ... *)
Definition bg_session (n : nat) : list os :=
  map (fun i => os_sleep_bg (1000 + Z.of_nat i)) (seq 0 n).

(** The signal dispositions the child sets before it redirects. *)
Definition child_prologue (g : shell) : list event :=
  Sigaction SIGTSTP_ SIG_IGN ::
  (if truthy (isBackground g) then [] else [Sigaction SIGINT SIG_DFL]).

Definition input_open (o : os) (g : shell) : Z := os_open o (inputFile g) [O_RDONLY].

Definition output_open (o : os) (g : shell) : Z :=
  os_open o (outputFile g) [O_WRONLY; O_CREAT; O_TRUNC].

(** What the child does up to a failed [open] of a redirection file. *)
Definition open_failure_trace (o : os) (g : shell) : list event :=
  child_prologue g ++
  if (in_ g =? 1) && (input_open o g =? -1) then
    [Open (inputFile g) [O_RDONLY] None (-1); Perror (lit "input file open()")]
  else
    (if in_ g =? 1
     then [Open (inputFile g) [O_RDONLY] None (input_open o g); Dup2 (input_open o g) 0]
     else []) ++
    [Open (outputFile g) [O_WRONLY; O_CREAT; O_TRUNC] (Some mode_0644) (-1);
     Perror (lit "output file open()")].

(** The file name of a directive is a token of the line, or [NULL]. *)
Definition named_in (toks : list cstring) (file : option cstring) : Prop :=
  match file with
  | Some f => f ∈ toks
  | None => True
  end.

(** [backgroundAllowed] is 0 or 1. *)
Definition mode_is_boolean (g : shell) : Prop :=
  backgroundAllowed g = 0 \/ backgroundAllowed g = 1.

(** A computation that leaves [backgroundAllowed] at 0 or 1 if it was. *)
Definition keeps_mode (g g' : shell) : Prop :=
  mode_is_boolean g -> mode_is_boolean g'.

(** The flags [in] and [out] are left as they were. *)
Definition same_directives (g g' : shell) : Prop :=
  in_ g' = in_ g /\ out g' = out g.

(** The answers of the system to a foreground command [line] that ends with
    exit code 0. *)
Definition os_command (line : string) (fork : Z) : os := {|
  os_sigtstp := 0; os_getline := lit line ++ [NL]; os_getline_cap := 120;
  os_getpid := 1234; os_getenv_HOME := None; os_chdir := fun _ => 0;
  os_fork := fork;
  os_waitpid := [WaitStatus (W_EXITCODE 0 0)];
  os_waitpid_nohang := fun _ _ => (0, 0);
  os_open := fun _ _ => 3; os_execvp_ok := true |}.

Definition is_redirect (t : cstring) : bool := streq t (lit ">") || streq t (lit "<").

(** The tokens the loop of [shell_split_line] stores in the array. *)
Fixpoint stored_tokens (toks : list cstring) : list cstring :=
  match toks with
  | [] => []
  | t :: rest =>
      if is_redirect t then
        match rest with
        | [] => []
        | _ :: rest' => stored_tokens rest'
        end
      else t :: stored_tokens rest
  end.

(** The tokens end with a [<] or [>] that still waits for its file name. *)
Fixpoint pending_redirection (toks : list cstring) : bool :=
  match toks with
  | [] => false
  | t :: rest =>
      if is_redirect t then
        match rest with
        | [] => true
        | _ :: rest' => pending_redirection rest'
        end
      else pending_redirection rest
  end.

Definition grow (bufsize position : nat) : nat :=
  if (bufsize <=? position)%nat then (bufsize + TOK_BUFFSIZE)%nat else bufsize.

(** The expansion in the words of the specification: reading the line from
    left to right, every [$$] met is replaced by [pid] and every other
    character is kept. *)
Fixpoint expand_spec (pid line : cstring) : cstring :=
  match line with
  | c1 :: ((c2 :: rest) as tl) =>
      if bool_decide (c1 = "$"%char) && bool_decide (c2 = "$"%char)
      then pid ++ expand_spec pid rest
      else c1 :: expand_spec pid tl
  | _ => line
  end.

(** The answers of the system when the user enters [echo $$] followed by 4096
    letters [a]: a line of 4104 characters with its newline, for which
    [getline] has a buffer of 7680 bytes. *)
Definition os_long_line : os := {|
  os_sigtstp := 0;
  os_getline := lit "echo $$ " ++ replicate 4096 "a"%char ++ [NL];
  os_getline_cap := 120 * 64;
  os_getpid := 1234; os_getenv_HOME := None; os_chdir := fun _ => 0;
  os_fork := 4321;
  os_waitpid := [WaitStatus (W_EXITCODE 0 0)];
  os_waitpid_nohang := fun _ _ => (0, 0);
  os_open := fun _ _ => 3; os_execvp_ok := true |}.

(** ** Notions used to state further properties *)

(** The directory [shell_cd] changes to: the home directory without an
    argument or with [~], the argument otherwise. *)
Definition cd_target (o : os) (args : list cstring) : option cstring :=
  match args !! 1%nat with
  | None => os_getenv_HOME o
  | Some a => if streq a (lit "~") then os_getenv_HOME o else Some a
  end.

(** SIGKILL sent to the first [n] entries of an array, in order. *)
Definition kill_events (bgProcesses : list Z) (n : nat) : list event :=
  map (fun p => Kill p SIGKILL) (take n bgProcesses).

(** The line [background_check] prints for a child [wpid] that ended with
    the status [st]. *)
Definition bg_report (wpid st : Z) : list event :=
  if WIFEXITED st then
    [Printf (lit "background pid " ++ fmt_d wpid ++ lit " is done: exit value "
             ++ fmt_d (WEXITSTATUS st) ++ [NL])]
  else if WIFSIGNALED st then
    [Printf (lit "background pid " ++ fmt_d wpid
             ++ lit " is done: terminated by signal "
             ++ fmt_d (WTERMSIG st) ++ [NL])]
  else [].

(** The lines printed for the entries [i], ..., [i + n - 1], in that order. *)
Definition bg_reports (o : os) (bgProcesses : list Z) (i n : nat) : list event :=
  concat (map (fun j =>
                 match bgProcesses !! j with
                 | Some p =>
                     let '(wpid, st) := os_waitpid_nohang o j p in
                     if wpid =? p then bg_report wpid st else []
                 | None => []
                 end) (seq i n)).


(** The part [proj] of the globals is the same before and after. *)
Definition untouched {T : Type} (proj : shell -> T) (g g' : shell) : Prop :=
  proj g' = proj g.

(** The registry as a pair: the array and the count. *)
Definition registry (g : shell) : list Z * Z := (bgTracker g, numBGProcesses g).

(** The two signal dispositions. *)
Definition dispositions (g : shell) : handler * handler :=
  (SIGINT_handler g, SIGTSTP_handler g).

(** The registry only grows: the array keeps its size, the count does not go
    down and the entries below the old count stay. *)
Definition registry_grows (g g' : shell) : Prop :=
  length (bgTracker g') = length (bgTracker g) /\
  numBGProcesses g <= numBGProcesses g' /\
  take (Z.to_nat (numBGProcesses g)) (bgTracker g')
  = take (Z.to_nat (numBGProcesses g)) (bgTracker g).

(** The globals when [main] enters [shell_loop]. *)
Definition main_setup (g : shell) : shell :=
  set_events
    (events g ++ [Sigaction SIGINT SIG_IGN; Sigaction SIGTSTP_ Handler_catchSIGTSTP])
    (set_SIGTSTP_handler Handler_catchSIGTSTP (set_SIGINT_handler SIG_IGN g)).

(** The test on the last stored argument at the end of [shell_split_line]. *)
Definition ends_with_ampersand (tokens : list cstring) : bool :=
  match last tokens with Some t => streq t (lit "&") | None => false end.

(** A word: no character of [TOK_DELIM] in it. *)
Definition delimiter_free (w : cstring) : bool :=
  forallb (fun c => negb (is_delim c)) w.

(** * Properties *)

(** ** The monad *)

Lemma bind_Ret {A B} (c : M A) (k : A -> M B) g a g' :
  c g = (Ret a, g') -> bind c k g = k a g'.
Proof. unfold bind. intros ->. reflexivity. Qed.

Lemma bind_Blocked {A B} (c : M A) (k : A -> M B) g g' :
  c g = (Blocked, g') -> bind c k g = (Blocked, g').
Proof. unfold bind. intros ->. reflexivity. Qed.

Lemma bind_Undefined {A B} (c : M A) (k : A -> M B) g g' :
  c g = (Undefined, g') -> bind c k g = (Undefined, g').
Proof. unfold bind. intros ->. reflexivity. Qed.

Lemma bind_Exited {A B} (c : M A) (k : A -> M B) g g' code :
  c g = (Exited code, g') -> bind c k g = (Exited code, g').
Proof. unfold bind. intros ->. reflexivity. Qed.

Lemma bind_modify {B} (f : shell -> shell) (k : unit -> M B) g :
  bind (modify f) k g = k tt (f g).
Proof. reflexivity. Qed.

Lemma bind_get {B} (k : shell -> M B) g : bind get k g = k g g.
Proof. reflexivity. Qed.

Lemma bind_ret {A B} (a : A) (k : A -> M B) g : bind (ret a) k g = k a g.
Proof. reflexivity. Qed.

Lemma bind_emit {B} (e : event) (k : unit -> M B) g :
  bind (emit e) k g = k tt (set_events (events g ++ [e]) g).
Proof. reflexivity. Qed.

Lemma bind_printf {B} (t : cstring) (k : unit -> M B) g :
  bind (printf t) k g = k tt (set_events (events g ++ [Printf t]) g).
Proof. reflexivity. Qed.

(** A relation between the globals before and after a computation,
    whatever way the computation ends. *)
Section Frame.
Context (R : shell -> shell -> Prop).
Local Abbreviation keeps := (keeps R).
Hypothesis R_refl : forall g, R g g.
Hypothesis R_trans : forall g1 g2 g3, R g1 g2 -> R g2 g3 -> R g1 g3.

Lemma keeps_ret {A} (a : A) : keeps (ret a).
Proof. intros g. apply R_refl. Qed.

Lemma keeps_get : keeps get.
Proof. intros g. apply R_refl. Qed.

Lemma keeps_exit code : keeps (exit_ code).
Proof. intros g. apply R_refl. Qed.

Lemma keeps_execed f av : keeps (execed f av).
Proof. intros g. apply R_refl. Qed.

Lemma keeps_blocked {A} : keeps (@blocked A).
Proof. intros g. apply R_refl. Qed.

Lemma keeps_undefined {A} : keeps (@undefined A).
Proof. intros g. apply R_refl. Qed.

Lemma keeps_modify f : (forall g, R g (f g)) -> keeps (modify f).
Proof. intros H g. apply H. Qed.

Lemma keeps_bind {A B} (c : M A) (k : A -> M B) :
  keeps c -> (forall a, keeps (k a)) -> keeps (bind c k).
Proof.
  intros Hc Hk g. unfold bind. specialize (Hc g).
  destruct (c g) as [[a| | | |] g']; simpl in *; try assumption.
  eapply R_trans; [exact Hc|apply Hk].
Qed.

Lemma keeps_when b (c : M unit) : keeps c -> keeps (when b c).
Proof. intros H. destruct b; simpl; [assumption|apply keeps_ret]. Qed.
End Frame.

(** ** Wait statuses *)

Lemma land_7f_of_ff s : Z.land s 0x7f = Z.land (Z.land s 0xff) 0x7f.
Proof. rewrite <- Z.land_assoc. reflexivity. Qed.

Lemma stopped_does_not_end_wait s : WIFSTOPPED s = true -> ends_wait s = false.
Proof.
  unfold WIFSTOPPED, ends_wait, WIFEXITED, WIFSIGNALED, WTERMSIG.
  intros H. apply Z.eqb_eq in H. rewrite land_7f_of_ff, H. reflexivity.
Qed.

Lemma ends_wait_not_stopped s : ends_wait s = true -> WIFSTOPPED s = false.
Proof.
  intros H. destruct (WIFSTOPPED s) eqn:E; [|reflexivity].
  apply stopped_does_not_end_wait in E. congruence.
Qed.

Lemma set_status_set_status a b g : set_status a (set_status b g) = set_status a g.
Proof. reflexivity. Qed.

Lemma wait_loop_statuses (ss : list Z) (g : shell) :
  match List.find ends_wait ss with
  | Some s => wait_loop (map WaitStatus ss) g = (Ret tt, set_status s g)
  | None => fst (wait_loop (map WaitStatus ss) g) = Blocked
  end.
Proof.
  revert g. induction ss as [|s ss IH]; intros g; simpl; [reflexivity|].
  rewrite bind_modify, bind_get. cbn [status set_status].
  unfold ends_wait in *.
  destruct (WIFEXITED s) eqn:E1; simpl; [reflexivity|].
  destruct (WIFSIGNALED s) eqn:E2; simpl; [reflexivity|].
  specialize (IH (set_status s g)).
  destruct (List.find _ ss); [rewrite IH; reflexivity|exact IH].
Qed.

Lemma find_first {A} (f : A -> bool) (l : list A) (x : A) :
  List.find f l = Some x ->
  exists pre post, l = pre ++ x :: post /\ Forall (fun y => f y = false) pre /\ f x = true.
Proof.
  induction l as [|a l IH]; simpl; [discriminate|].
  destruct (f a) eqn:E.
  - intros [= ->]. exists [], l. auto.
  - intros H. destruct (IH H) as (pre & post & -> & Hpre & Hx).
    exists (a :: pre), post. auto.
Qed.

(** Whatever [waitpid] answers, the loop is left only with a status that
    tells an exit or a terminating signal. *)
Lemma wait_loop_returns_final (answers : list wait_result) (g g' : shell) :
  wait_loop answers g = (Ret tt, g') -> ends_wait (status g') = true.
Proof.
  revert g. induction answers as [|w answers IH]; intros g; simpl; [discriminate|].
  destruct w as [s|]; [rewrite bind_modify|rewrite bind_ret]; rewrite bind_get.
  - cbn [status set_status]. destruct (negb (WIFEXITED s) && negb (WIFSIGNALED s)) eqn:E.
    + apply IH.
    + intros [= <-]. cbn [status set_status]. unfold ends_wait.
      destruct (WIFEXITED s), (WIFSIGNALED s); simpl in *; congruence.
  - destruct (negb (WIFEXITED (status g)) && negb (WIFSIGNALED (status g))) eqn:E.
    + apply IH.
    + intros [= <-]. unfold ends_wait.
      destruct (WIFEXITED (status g)), (WIFSIGNALED (status g)); simpl in *; congruence.
Qed.

(** C7: in the foreground branch of [shell_launch] the wait loop goes on over
    every status that tells a stop and ends at the first delivered status that
    tells an exit or a terminating signal; that status, which is not a stop
    status, is the one left in [status]. *)
Theorem foreground_wait_ends_only_on_termination
    (o : os) (pid : Z) (g : shell) (ss : list Z) (s : Z) :
  isBackground g = 0 ->
  os_waitpid o = map WaitStatus ss ->
  List.find ends_wait ss = Some s ->
  (forall x, WIFSTOPPED x = true -> ends_wait x = false) /\
  (exists pre post, ss = pre ++ s :: post /\
     Forall (fun x => ends_wait x = false) pre /\ ends_wait s = true) /\
  WIFSTOPPED s = false /\
  wait_loop (os_waitpid o) g = (Ret tt, set_status s g) /\
  fst (shell_launch_parent o pid g) = Ret tt /\
  status (snd (shell_launch_parent o pid g)) = s.
Proof.
  intros Hfg Hos Hfind.
  pose proof (find_first _ _ _ Hfind) as (pre & post & Hss & Hpre & Hs).
  pose proof (wait_loop_statuses ss g) as Hloop. rewrite Hfind in Hloop.
  split; [exact stopped_does_not_end_wait|].
  split; [exists pre, post; auto|].
  split; [apply ends_wait_not_stopped; exact Hs|].
  rewrite Hos. split; [exact Hloop|].
  unfold shell_launch_parent. rewrite bind_get, Hfg. cbn [truthy Z.eqb negb].
  rewrite Hos. rewrite (bind_Ret _ _ _ _ _ Hloop), bind_get.
  cbn [status set_status].
  destruct (WIFSIGNALED s); simpl; auto.
Qed.

(** A child stopped by SIGTSTP and then killed by SIGKILL: the shell reports
    signal 9 only. *)
Lemma foreground_wait_ends_only_on_termination_witness :
  let o := {| os_sigtstp := 0; os_getline := []; os_getline_cap := 120;
              os_getpid := 1234; os_getenv_HOME := None; os_chdir := fun _ => 0;
              os_fork := 4321;
              os_waitpid := map WaitStatus [W_STOPCODE SIGTSTP; W_EXITCODE 0 SIGKILL];
              os_waitpid_nohang := fun _ _ => (0, 0);
              os_open := fun _ _ => 3; os_execvp_ok := true |} in
  status (snd (shell_launch_parent o 4321 initial_shell)) = 9 /\
  events (snd (shell_launch_parent o 4321 initial_shell))
    = [Printf (lit "terminated by signal 9" ++ [NL])].
Proof.
  intros o.
  pose proof (foreground_wait_ends_only_on_termination o 4321 initial_shell
                [W_STOPCODE SIGTSTP; W_EXITCODE 0 SIGKILL] 9
                eq_refl eq_refl eq_refl) as H.
  split; [apply H|reflexivity].
Defined.

(** ** The [status] built-in and the report of a terminating signal *)

Lemma shell_status_signaled (args : list cstring) (g : shell) :
  WIFEXITED (status g) = false -> WIFSIGNALED (status g) = true ->
  shell_status args g
  = (Ret 1, set_events (events g ++
       [Printf (lit "terminated by signal " ++ fmt_d (WTERMSIG (status g)) ++ [NL])]) g).
Proof.
  intros H1 H2. unfold shell_status. rewrite bind_get, H1, H2. reflexivity.
Qed.

Lemma shell_status_exited (args : list cstring) (g : shell) :
  WIFEXITED (status g) = true ->
  shell_status args g
  = (Ret 1, set_events (events g ++
       [Printf (lit "exit value " ++ fmt_d (WEXITSTATUS (status g)) ++ [NL])]) g).
Proof.
  intros H1. unfold shell_status. rewrite bind_get, H1. reflexivity.
Qed.

(** C10: as long as [status] holds its initial value -5, which the macros
    read as a termination by signal 123, the [status] built-in prints
    [terminated by signal 123], no [exit value] line, and returns 1, so the
    loop goes on. *)
Theorem status_before_first_wait (o : os) (args : list cstring) (g : shell) :
  status g = -5 ->
  WIFEXITED (status g) = false /\
  WIFSIGNALED (status g) = true /\
  WTERMSIG (status g) = 123 /\
  shell_status args g
  = (Ret 1, set_events (events g ++
       [Printf (lit "terminated by signal 123" ++ [NL])]) g) /\
  shell_execute o (lit "status" :: args) g = shell_status (lit "status" :: args) g /\
  truthy 1 = true.
Proof.
  intros H.
  assert (H1 : WIFEXITED (status g) = false) by (rewrite H; reflexivity).
  assert (H2 : WIFSIGNALED (status g) = true) by (rewrite H; reflexivity).
  repeat split; try assumption.
  - rewrite H. reflexivity.
  - rewrite (shell_status_signaled args g H1 H2), H. reflexivity.
Qed.

Lemma status_before_first_wait_witness :
  status initial_shell = -5 /\
  events (snd (shell_status [lit "status"] initial_shell))
  = [Printf (lit "terminated by signal 123" ++ [NL])].
Proof.
  split; [reflexivity|].
  pose proof (status_before_first_wait
                {| os_sigtstp := 0; os_getline := []; os_getline_cap := 120;
                   os_getpid := 1234; os_getenv_HOME := None;
                   os_chdir := fun _ => 0; os_fork := 4321; os_waitpid := [];
                   os_waitpid_nohang := fun _ _ => (0, 0);
                   os_open := fun _ _ => 3; os_execvp_ok := true |}
                [lit "status"] initial_shell eq_refl) as (_ & _ & _ & H & _).
  rewrite H. reflexivity.
Defined.

(** What the foreground branch prints after the wait: the whole of [status]. *)
Lemma shell_launch_parent_foreground (o : os) (pid s : Z) (ss : list Z) (g : shell) :
  isBackground g = 0 ->
  os_waitpid o = map WaitStatus ss ->
  List.find ends_wait ss = Some s ->
  shell_launch_parent o pid g
  = (Ret tt,
     if WIFSIGNALED s
     then set_events (events g ++
            [Printf (lit "terminated by signal " ++ fmt_d s ++ [NL])]) (set_status s g)
     else set_status s g).
Proof.
  intros Hfg Hos Hfind.
  pose proof (wait_loop_statuses ss g) as Hloop. rewrite Hfind in Hloop.
  unfold shell_launch_parent. rewrite bind_get, Hfg. cbn [truthy Z.eqb negb].
  rewrite Hos, (bind_Ret _ _ _ _ _ Hloop), bind_get. cbn [status set_status].
  destruct (WIFSIGNALED s); reflexivity.
Qed.

(** A status without the core-dump flag is the signal number itself. *)
Lemma signaled_without_core_is_signal s :
  0 <= s < 128 -> WTERMSIG s = s.
Proof.
  intros H. unfold WTERMSIG. change 0x7f with (Z.ones 7).
  rewrite Z.land_ones by lia. apply Z.mod_small. change (2 ^ 7) with 128. lia.
Qed.

(** C1 (the code departs from it): for a foreground child killed by signal 11
    with a core dump the wait status is 139; it tells a termination by signal
    11, the [status] built-in run next prints [terminated by signal 11], but
    [shell_launch] prints [terminated by signal 139]. *)
Theorem foreground_signal_report_prints_whole_status :
  let r := shell_loop_body os_segfault initial_shell in
  fst r = Ret 1 /\
  status (snd r) = 139 /\
  WIFSIGNALED (status (snd r)) = true /\
  WTERMSIG (status (snd r)) = 11 /\
  events (snd r)
  = [Printf (lit ": "); Printf (lit "terminated by signal 139" ++ [NL])] /\
  events (snd (shell_status [lit "status"] (set_events [] (snd r))))
  = [Printf (lit "terminated by signal 11" ++ [NL])].
Proof. vm_compute. repeat split; reflexivity. Qed.

(** ** The registry of background children *)

Lemma bgTracker_store_in_bounds (pid : Z) (g : shell) :
  0 <= numBGProcesses g < Z.of_nat bgTracker_size ->
  bgTracker_store pid g
  = (Ret tt, set_numBGProcesses (numBGProcesses g + 1)
               (set_bgTracker (<[Z.to_nat (numBGProcesses g) := pid]> (bgTracker g)) g)).
Proof.
  intros [H1 H2]. unfold bgTracker_store. rewrite bind_get.
  apply Z.leb_le in H1. apply Z.ltb_lt in H2. rewrite H1, H2. reflexivity.
Qed.

(** No test guards the store: once the array is full, the next background
    child is written behind its last element. *)
Lemma bgTracker_store_out_of_bounds (pid : Z) (g : shell) :
  Z.of_nat bgTracker_size <= numBGProcesses g ->
  bgTracker_store pid g = (Undefined, g).
Proof.
  intros H. unfold bgTracker_store. rewrite bind_get.
  apply Z.ltb_ge in H. rewrite H, andb_false_r. reflexivity.
Qed.

(** C3 (the code departs from it): after 250 commands [sleep 100 &] the
    registry is full, all 250 entries written and the shell waiting for its
    next line; the 251st such command prints the child's identifier and then
    stores it at index 250, outside the array of 250 entries. *)
Theorem registry_store_overruns_array :
  let full := snd (shell_loop (bg_session 250) initial_shell) in
  fst (shell_loop (bg_session 250) initial_shell) = Blocked /\
  numBGProcesses full = 250 /\
  length (bgTracker full) = 250%nat /\
  bgTracker full = map (fun i => 1000 + Z.of_nat i) (seq 0 250) /\
  isBackground (snd (shell_loop_parse (os_sleep_bg 1250) full)) = 1 /\
  shell_launch_parent (os_sleep_bg 1250) 1250
    (snd (shell_loop_parse (os_sleep_bg 1250) full))
  = (Undefined,
     set_events (events full ++
       [Printf (lit ": "); Printf (lit "background pid is 1250" ++ [NL])])
       (snd (shell_loop_parse (os_sleep_bg 1250) full))) /\
  fst (shell_loop (bg_session 251) initial_shell) = Undefined.
Proof. vm_compute. repeat split; reflexivity. Qed.

(** ** Dispatch *)

Lemma strchr_true (s : cstring) (c : ascii) : strchr s c = true <-> c ∈ s.
Proof. unfold strchr. apply bool_decide_eq_true. Qed.

Lemma streq_true (a b : cstring) : streq a b = true <-> a = b.
Proof. unfold streq. apply bool_decide_eq_true. Qed.

Lemma streq_false (a b : cstring) : streq a b = false <-> a <> b.
Proof. unfold streq. apply bool_decide_eq_false. Qed.

Lemma streq_refl (a : cstring) : streq a a = true.
Proof. apply streq_true. reflexivity. Qed.

(** What the code does: nothing when there is no token or when the first
    token holds a [#] anywhere; else the built-in of that very name, if any;
    else a launch. *)
Lemma dispatch_cases (args : list cstring) :
  match dispatch args with
  | NoAction =>
      args = [] \/ (exists arg0 rest, args = arg0 :: rest /\ "#"%char ∈ arg0)
  | Builtin i =>
      exists arg0 rest, args = arg0 :: rest /\ ("#"%char ∉ arg0) /\
        builtin_str !! i = Some arg0
  | Launch =>
      exists arg0 rest, args = arg0 :: rest /\ ("#"%char ∉ arg0) /\ arg0 ∉ builtin_str
  end.
Proof.
  destruct args as [|arg0 rest]; [left; reflexivity|].
  unfold dispatch. destruct (strchr arg0 "#") eqn:E.
  - right. exists arg0, rest. split; [reflexivity|]. apply strchr_true. exact E.
  - assert (Hno : "#"%char ∉ arg0).
    { intros H. apply strchr_true in H. congruence. }
    change (find_builtin arg0 (take shell_num_builtins builtin_str) 0)
      with (if streq arg0 (lit "cd") then Some 0%nat
            else if streq arg0 (lit "exit") then Some 1%nat
            else if streq arg0 (lit "status") then Some 2%nat else None).
    destruct (streq arg0 (lit "cd")) eqn:E1.
    { apply streq_true in E1. subst. exists (lit "cd"), rest. auto. }
    destruct (streq arg0 (lit "exit")) eqn:E2.
    { apply streq_true in E2. subst. exists (lit "exit"), rest. auto. }
    destruct (streq arg0 (lit "status")) eqn:E3.
    { apply streq_true in E3. subst. exists (lit "status"), rest. auto. }
    apply streq_false in E1, E2, E3.
    exists arg0, rest. split; [reflexivity|]. split; [exact Hno|].
    unfold builtin_str. rewrite !elem_of_cons, elem_of_nil. tauto.
Qed.

Lemma dispatch_NoAction_iff (args : list cstring) :
  dispatch args = NoAction <->
  args = [] \/ (exists arg0 rest, args = arg0 :: rest /\ "#"%char ∈ arg0).
Proof.
  split.
  - intros H. pose proof (dispatch_cases args) as Hc. rewrite H in Hc. exact Hc.
  - intros [->|(arg0 & rest & -> & Hin)]; [reflexivity|].
    simpl. apply strchr_true in Hin. rewrite Hin. reflexivity.
Qed.

(** C2 (the code departs from it): the one-token line [x#y] does not start
    with [#], yet [shell_execute] takes it for a comment: it returns 1 and
    does nothing, where the same line without the [#] is launched. *)
Theorem comment_test_matches_inner_hash (o : os) (g : shell) :
  head (lit "x#y") = Some "x"%char /\
  dispatch [lit "x#y"] = NoAction /\
  shell_execute o [lit "x#y"] g = (Ret 1, g) /\
  dispatch [lit "#xy"] = NoAction /\
  dispatch [lit "xy"] = Launch.
Proof. repeat split; reflexivity. Qed.

(** ** The SIGTSTP handler *)

Lemma catchSIGTSTP_allowed_on (signo : Z) (g : shell) :
  backgroundAllowed g = 1 ->
  catchSIGTSTP signo g
  = (Ret tt, set_backgroundAllowed 0
               (set_events (events g ++ [Write 1 message_entering; Fflush]) g)).
Proof.
  intros H. unfold catchSIGTSTP. rewrite bind_get, H.
  cbn. rewrite <- app_assoc. reflexivity.
Qed.

Lemma catchSIGTSTP_allowed_off (signo : Z) (g : shell) :
  backgroundAllowed g = 0 ->
  catchSIGTSTP signo g
  = (Ret tt, set_backgroundAllowed 1
               (set_events (events g ++ [Write 1 message_exiting; Fflush]) g)).
Proof.
  intros H. unfold catchSIGTSTP. rewrite bind_get, H.
  cbn. rewrite <- app_assoc. reflexivity.
Qed.

(** ** Redirection in the child *)

(** Unfolding of the monad's operations. *)
Ltac mrun :=
  cbv beta iota zeta delta
    [bind ret get modify emit exit_ execed blocked undefined when printf perror
     sigaction open_ dup2 chdir fst snd
     set_in set_out set_isBackground set_inputFile set_outputFile
     set_SIGINT_handler set_SIGTSTP_handler set_bgTracker set_numBGProcesses
     set_status set_backgroundAllowed set_events
     in_ out isBackground inputFile outputFile SIGINT_handler SIGTSTP_handler
     bgTracker numBGProcesses status backgroundAllowed events
     negb andb orb].

Lemma child_input_open_failure (o : os) (args : list cstring) (g : shell) :
  os_fork o = 0 ->
  in_ g = 1 ->
  input_open o g = -1 ->
  fst (shell_launch o args g) = Exited 1 /\
  events (snd (shell_launch o args g)) = events g ++ open_failure_trace o g.
Proof.
  intros Hfork Hin Hopen.
  unfold shell_launch, shell_launch_child, open_failure_trace, child_prologue.
  rewrite Hfork, Hopen, Hin. unfold input_open in Hopen.
  destruct g; simpl in *; subst.
  destruct (truthy isBackground0) eqn:Ebg; mrun; rewrite ?Ebg; mrun;
    change (1 =? 1) with true; mrun; rewrite Hopen;
    change (-1 =? -1) with true; mrun;
    (split; [reflexivity|rewrite <- !app_assoc; reflexivity]).
Qed.

Lemma child_output_open_failure (o : os) (args : list cstring) (g : shell) :
  os_fork o = 0 ->
  (in_ g = 1 -> input_open o g <> -1) ->
  out g = 1 ->
  output_open o g = -1 ->
  fst (shell_launch o args g) = Exited 1 /\
  events (snd (shell_launch o args g)) = events g ++ open_failure_trace o g.
Proof.
  intros Hfork Hin Hout Hopen.
  unfold shell_launch, shell_launch_child, open_failure_trace, child_prologue.
  rewrite Hfork. unfold output_open in Hopen. unfold input_open in *.
  destruct g; simpl in *; subst.
  destruct (in_0 =? 1) eqn:Ein.
  - apply Z.eqb_eq in Ein. specialize (Hin Ein). apply Z.eqb_neq in Hin.
    rewrite Hin. subst in_0.
    destruct (truthy isBackground0) eqn:Ebg; mrun; rewrite ?Ebg; mrun;
      rewrite ?Hin; change (1 =? 1) with true; mrun; rewrite Hopen;
      change (-1 =? -1) with true; mrun;
      (split; [reflexivity|rewrite <- !app_assoc; reflexivity]).
  - destruct (truthy isBackground0) eqn:Ebg; mrun; rewrite ?Ebg; mrun;
      rewrite ?Ein; change (1 =? 1) with true; mrun; rewrite Hopen;
      change (-1 =? -1) with true; mrun;
      (split; [reflexivity|rewrite <- !app_assoc; reflexivity]).
Qed.

Lemma wait_loop_outcome (answers : list wait_result) (g : shell) :
  fst (wait_loop answers g) = Ret tt \/ fst (wait_loop answers g) = Blocked.
Proof.
  revert g. induction answers as [|w answers IH]; intros g; simpl; [right; reflexivity|].
  destruct w as [s|]; [rewrite bind_modify|rewrite bind_ret]; rewrite bind_get;
    match goal with |- context [if ?b then _ else _] => destruct b end;
    auto.
Qed.

Lemma shell_launch_parent_outcome (o : os) (pid : Z) (g : shell) :
  fst (shell_launch_parent o pid g) = Ret tt \/
  fst (shell_launch_parent o pid g) = Blocked \/
  fst (shell_launch_parent o pid g) = Undefined.
Proof.
  unfold shell_launch_parent. rewrite bind_get.
  destruct (truthy (isBackground g)).
  - rewrite bind_printf. unfold bgTracker_store. rewrite bind_get.
    cbn [numBGProcesses set_events].
    destruct ((0 <=? _) && (_ <? _)); mrun; auto.
  - pose proof (wait_loop_outcome (os_waitpid o) g) as Hw.
    destruct (wait_loop (os_waitpid o) g) as [[[]| | | |] g'] eqn:E; simpl in Hw;
      destruct Hw as [Hw|Hw]; try discriminate Hw.
    + rewrite (bind_Ret _ _ _ _ _ E), bind_get.
      destruct (WIFSIGNALED (status g')); mrun; auto.
    + rewrite (bind_Blocked _ _ _ _ E). auto.
Qed.

(** In the parent [shell_launch] never ends the process, and when it returns
    it returns 1. *)
Lemma shell_launch_parent_side (o : os) (args : list cstring) (g : shell) :
  os_fork o <> 0 ->
  (forall code, fst (shell_launch o args g) <> Exited code) /\
  (forall file argv, fst (shell_launch o args g) <> Execed file argv) /\
  (forall v, fst (shell_launch o args g) = Ret v -> v = 1).
Proof.
  intros Hfork. unfold shell_launch. apply Z.eqb_neq in Hfork. rewrite Hfork.
  destruct (os_fork o <? 0).
  { mrun. repeat split; try discriminate. intros v [= <-]. reflexivity. }
  pose proof (shell_launch_parent_outcome o (os_fork o) g) as Hp.
  destruct (shell_launch_parent o (os_fork o) g) as [[[]| | | |] g'] eqn:E;
    simpl in Hp; destruct Hp as [Hp|[Hp|Hp]]; try discriminate Hp.
  - rewrite (bind_Ret _ _ _ _ _ E). mrun.
    repeat split; try discriminate. intros v [= <-]. reflexivity.
  - rewrite (bind_Blocked _ _ _ _ E). repeat split; discriminate.
  - rewrite (bind_Undefined _ _ _ _ E). repeat split; discriminate.
Qed.

(** C8: in the child, when the [open] of the input file (read-only) or of the
    output file (write-only, create, truncate, mode 0644) returns -1, the
    child calls [perror] and ends with [exit(1)] straight after the failed
    [open]; the parent's [shell_launch] never ends the shell, returns 1
    whenever it returns, and, waiting in the foreground for that child, only
    records the child's exit status. *)
Theorem redirection_open_failure_ends_child
    (o : os) (args : list cstring) (g : shell) :
  os_fork o = 0 ->
  (in_ g = 1 /\ input_open o g = -1) \/
  ((in_ g = 1 -> input_open o g <> -1) /\ out g = 1 /\ output_open o g = -1) ->
  fst (shell_launch o args g) = Exited 1 /\
  events (snd (shell_launch o args g)) = events g ++ open_failure_trace o g /\
  mode_0644 = 6 * 8 * 8 + 4 * 8 + 4 /\
  forall parent : os,
    os_fork parent <> 0 ->
    (forall code, fst (shell_launch parent args g) <> Exited code) /\
    (forall v, fst (shell_launch parent args g) = Ret v -> v = 1 /\ truthy v = true) /\
    (0 < os_fork parent -> isBackground g = 0 ->
     os_waitpid parent = [WaitStatus (W_EXITCODE 1 0)] ->
     shell_launch parent args g = (Ret 1, set_status (W_EXITCODE 1 0) g)).
Proof.
  intros Hfork Hfail.
  assert (Hchild : fst (shell_launch o args g) = Exited 1 /\
                   events (snd (shell_launch o args g))
                   = events g ++ open_failure_trace o g).
  { destruct Hfail as [[Hin Hopen]|(Hin & Hout & Hopen)].
    - apply child_input_open_failure; assumption.
    - apply child_output_open_failure; assumption. }
  destruct Hchild as [H1 H2]. split; [exact H1|]. split; [exact H2|].
  split; [reflexivity|].
  intros parent Hp.
  destruct (shell_launch_parent_side parent args g Hp) as (Hexit & _ & Hret).
  split; [exact Hexit|]. split.
  - intros v Hv. rewrite (Hret v Hv). split; reflexivity.
  - intros Hpos Hfg Hwait. unfold shell_launch.
    apply Z.eqb_neq in Hp. rewrite Hp.
    assert (Hlt : (os_fork parent <? 0) = false) by (apply Z.ltb_ge; lia).
    rewrite Hlt.
    rewrite (bind_Ret _ _ _ tt (set_status (W_EXITCODE 1 0) g)); [reflexivity|].
    rewrite (shell_launch_parent_foreground parent (os_fork parent)
               (W_EXITCODE 1 0) [W_EXITCODE 1 0] g Hfg Hwait eq_refl).
    reflexivity.
Qed.

(** The child of [cat < missing.txt], whose [open] fails. *)
Lemma redirection_open_failure_ends_child_witness :
  let o := {| os_sigtstp := 0; os_getline := []; os_getline_cap := 120;
              os_getpid := 1234; os_getenv_HOME := None; os_chdir := fun _ => 0;
              os_fork := 0; os_waitpid := [];
              os_waitpid_nohang := fun _ _ => (0, 0);
              os_open := (fun _ _ => -1); os_execvp_ok := true |} in
  let g := set_inputFile (Some (lit "missing.txt")) (set_in 1 initial_shell) in
  shell_launch o [lit "cat"] g
  = (Exited 1,
     set_events [Sigaction SIGTSTP_ SIG_IGN; Sigaction SIGINT SIG_DFL;
                 Open (Some (lit "missing.txt")) [O_RDONLY] None (-1);
                 Perror (lit "input file open()")]
       (set_SIGINT_handler SIG_DFL (set_SIGTSTP_handler SIG_IGN g))).
Proof.
  intros o g.
  pose proof (redirection_open_failure_ends_child o [lit "cat"] g eq_refl
                (or_introl (conj eq_refl eq_refl))) as (H1 & H2 & _).
  destruct (shell_launch o [lit "cat"] g) as [r g'] eqn:E.
  simpl in H1. subst r. vm_compute in E. injection E as <-. reflexivity.
Defined.

(** ** Redirection directives from one command to the next *)

Lemma same_directives_refl g : same_directives g g.
Proof. split; reflexivity. Qed.

Lemma same_directives_trans g1 g2 g3 :
  same_directives g1 g2 -> same_directives g2 g3 -> same_directives g1 g3.
Proof. intros [H1 H2] [H3 H4]. split; congruence. Qed.

Lemma sd_ret {A} (a : A) : keeps same_directives (ret a).
Proof. apply keeps_ret, same_directives_refl. Qed.

Lemma sd_undefined {A} : keeps same_directives (@undefined A).
Proof. apply keeps_undefined, same_directives_refl. Qed.

Lemma sd_bind {A B} (c : M A) (k : A -> M B) :
  keeps same_directives c -> (forall a, keeps same_directives (k a)) ->
  keeps same_directives (bind c k).
Proof. apply keeps_bind, same_directives_trans. Qed.

Lemma sd_when b (c : M unit) :
  keeps same_directives c -> keeps same_directives (when b c).
Proof. apply keeps_when, same_directives_refl. Qed.

Lemma emit_same_directives e : keeps same_directives (emit e).
Proof. intros g. split; reflexivity. Qed.

Lemma catchSIGTSTP_same_directives signo : keeps same_directives (catchSIGTSTP signo).
Proof.
  intros g. unfold catchSIGTSTP. rewrite bind_get.
  destruct (backgroundAllowed g =? 1); [split; reflexivity|].
  destruct (backgroundAllowed g =? 0); split; reflexivity.
Qed.

Lemma deliver_SIGTSTP_same_directives n : keeps same_directives (deliver_SIGTSTP n).
Proof.
  induction n as [|n IH]; simpl.
  - apply sd_ret.
  - apply sd_bind; [apply catchSIGTSTP_same_directives|intros _; exact IH].
Qed.

Lemma shell_read_line_same_directives o : keeps same_directives (shell_read_line o).
Proof.
  unfold shell_read_line. apply sd_bind.
  - apply deliver_SIGTSTP_same_directives.
  - intros _. destruct (expanded_line o); intros g; apply same_directives_refl.
Qed.

Lemma background_check_loop_same_directives o bg i n :
  keeps same_directives (background_check_loop o bg i n).
Proof.
  revert i. induction n as [|n IH]; intros i; simpl.
  - apply sd_ret.
  - destruct (bg !! i) as [p|]; [|apply sd_undefined].
    destruct (os_waitpid_nohang o i p) as [wpid st].
    apply sd_bind; [|intros _; apply IH].
    apply sd_when.
    destruct (WIFEXITED st); [apply emit_same_directives|].
    destruct (WIFSIGNALED st); [apply emit_same_directives|].
    apply sd_ret.
Qed.

Lemma named_in_further (t : cstring) (toks : list cstring) (file : option cstring) :
  named_in toks file -> named_in (t :: toks) file.
Proof. destruct file; simpl; [apply list_elem_of_further|auto]. Qed.

(** The loop of [shell_split_line] sets [in] only at a token [<] and [out]
    only at a token [>], and with the flag the file name, which is then the
    token that follows or [NULL]. *)
Lemma split_loop_directives (n : nat) :
  forall (rest tokens : list cstring) (bufsize : nat) (g : shell),
    (length rest <= n)%nat ->
    let g' := snd (split_loop rest tokens bufsize g) in
    ((in_ g' = in_ g /\ inputFile g' = inputFile g) \/
     (in_ g' = 1 /\ lit "<" ∈ rest /\ named_in rest (inputFile g'))) /\
    ((out g' = out g /\ outputFile g' = outputFile g) \/
     (out g' = 1 /\ lit ">" ∈ rest /\ named_in rest (outputFile g'))).
Proof.
  induction n as [|n IH]; intros rest tokens bufsize g Hlen.
  { destruct rest; simpl in *; [auto|lia]. }
  destruct rest as [|token rest]; [simpl; auto|].
  cbn [split_loop].
  set (bs := if (bufsize <=? length tokens)%nat then _ else _). clearbody bs.
  simpl in Hlen.
  destruct (streq token (lit ">")) eqn:E1.
  { apply streq_true in E1. subst token.
    destruct rest as [|file rest].
    - simpl. split; [left; auto|right]. repeat split. apply list_elem_of_here.
    - simpl in Hlen.
      destruct (IH rest tokens bs (set_outputFile (Some file) (set_out 1 g))
                  ltac:(lia)) as [Hi Ho].
      cbn [in_ out inputFile outputFile set_outputFile set_out] in Hi, Ho.
      split.
      + destruct Hi as [Hi|(Hi & Hin & Hf)]; [left; exact Hi|right].
        repeat split; [exact Hi|do 2 apply list_elem_of_further; exact Hin|].
        do 2 apply named_in_further. exact Hf.
      + right. destruct Ho as [[Ho Hf]|(Ho & _ & Hf)].
        * repeat split; [exact Ho|apply list_elem_of_here|].
          rewrite Hf. simpl. apply list_elem_of_further, list_elem_of_here.
        * repeat split; [exact Ho|apply list_elem_of_here|].
          do 2 apply named_in_further. exact Hf. }
  destruct (streq token (lit "<")) eqn:E2.
  { apply streq_true in E2. subst token.
    destruct rest as [|file rest].
    - simpl. split; [right|left; auto]. repeat split. apply list_elem_of_here.
    - simpl in Hlen.
      destruct (IH rest tokens bs (set_inputFile (Some file) (set_in 1 g))
                  ltac:(lia)) as [Hi Ho].
      cbn [in_ out inputFile outputFile set_inputFile set_in] in Hi, Ho.
      split.
      + right. destruct Hi as [[Hi Hf]|(Hi & _ & Hf)].
        * repeat split; [exact Hi|apply list_elem_of_here|].
          rewrite Hf. simpl. apply list_elem_of_further, list_elem_of_here.
        * repeat split; [exact Hi|apply list_elem_of_here|].
          do 2 apply named_in_further. exact Hf.
      + destruct Ho as [Ho|(Ho & Hin & Hf)]; [left; exact Ho|right].
        repeat split; [exact Ho|do 2 apply list_elem_of_further; exact Hin|].
        do 2 apply named_in_further. exact Hf. }
  destruct (IH rest (tokens ++ [token]) bs g ltac:(lia)) as [Hi Ho].
  split.
  - destruct Hi as [Hi|(Hi & Hin & Hf)]; [left; exact Hi|right].
    repeat split; [exact Hi|apply list_elem_of_further; exact Hin|].
    apply named_in_further. exact Hf.
  - destruct Ho as [Ho|(Ho & Hin & Hf)]; [left; exact Ho|right].
    repeat split; [exact Ho|apply list_elem_of_further; exact Hin|].
    apply named_in_further. exact Hf.
Qed.

Lemma shell_split_line_directives (line : cstring) (g : shell) :
  let g' := snd (shell_split_line line g) in
  (in_ g' = in_ g \/
   (in_ g' = 1 /\ lit "<" ∈ strtok_tokens line /\
    named_in (strtok_tokens line) (inputFile g'))) /\
  (out g' = out g \/
   (out g' = 1 /\ lit ">" ∈ strtok_tokens line /\
    named_in (strtok_tokens line) (outputFile g'))).
Proof.
  unfold shell_split_line. rewrite bind_modify, bind_get.
  pose proof (split_loop_directives _ (strtok_tokens line) [] TOK_BUFFSIZE
                (set_isBackground 0 g) (le_n _)) as H.
  destruct (split_loop (strtok_tokens line) [] TOK_BUFFSIZE (set_isBackground 0 g))
    as [[tokens bufsize] g1].
  cbn [snd in_ out inputFile outputFile set_isBackground] in H. rewrite bind_modify.
  assert (H' : (in_ g1 = in_ g \/
                (in_ g1 = 1 /\ lit "<" ∈ strtok_tokens line /\
                 named_in (strtok_tokens line) (inputFile g1))) /\
               (out g1 = out g \/
                (out g1 = 1 /\ lit ">" ∈ strtok_tokens line /\
                 named_in (strtok_tokens line) (outputFile g1)))).
  { destruct H as [[[Hi _]|Hi] [[Ho _]|Ho]]; auto. }
  clear H.
  destruct (match last tokens with Some t => streq t (lit "&") | None => false end).
  - destruct (truthy (backgroundAllowed g1)); exact H'.
  - destruct (length tokens <? bufsize)%nat; exact H'.
Qed.

Lemma bind_cases {A B} (c : M A) (k : A -> M B) (g : shell) :
  (exists a, c g = (Ret a, snd (c g)) /\ bind c k g = k a (snd (c g))) \/
  ((forall a, fst (c g) <> Ret a) /\ snd (bind c k g) = snd (c g)).
Proof.
  unfold bind. destruct (c g) as [[a| | | |] g']; simpl;
    [left; exists a; auto|right..]; split; try reflexivity; discriminate.
Qed.

Lemma shell_read_line_Ret (o : os) (g g' : shell) (line : cstring) :
  shell_read_line o g = (Ret line, g') -> expanded_line o = Ret line.
Proof.
  unfold shell_read_line.
  destruct (bind_cases (deliver_SIGTSTP (os_sigtstp o))
              (fun _ => match expanded_line o with
                        | Ret l => ret l
                        | Undefined => undefined
                        | _ => blocked
                        end) g) as [(a & _ & ->)|[Hn Hs]].
  - destruct (expanded_line o); try discriminate. intros [= -> _]. reflexivity.
  - intros H. exfalso. unfold bind in H.
    destruct (deliver_SIGTSTP (os_sigtstp o) g) as [[a| | | |] g1]; try discriminate.
    apply (Hn a). reflexivity.
Qed.

(** With both flags at 0 the child of a foreground command opens no file and
    duplicates no descriptor, whatever [inputFile] and [outputFile] hold. *)
Lemma child_without_directives (o : os) (args : list cstring) (g : shell) :
  os_fork o = 0 -> in_ g = 0 -> out g = 0 -> isBackground g = 0 ->
  events (snd (shell_launch o args g))
  = events g ++
    Sigaction SIGTSTP_ SIG_IGN :: Sigaction SIGINT SIG_DFL ::
    match args with
    | file :: _ => if os_execvp_ok o then [] else [Perror (lit "smallsh")]
    | [] => [Perror (lit "smallsh")]
    end.
Proof.
  intros Hfork Hin Hout Hbg. unfold shell_launch, shell_launch_child.
  rewrite Hfork. destruct g; simpl in *; subst.
  destruct args as [|file args]; [|destruct (os_execvp_ok o)]; cbv -[app];
    rewrite <- ?app_assoc; reflexivity.
Qed.

(** C6: each iteration first sets [in] and [out] to 0 and runs the rest
    from that state; when the line has been read and split, [in] is 1 only
    if this very line holds a token [<], the input file then being a token
    of this line (or [NULL]), and is 0 otherwise; likewise [out] with [>],
    whatever the earlier commands left.  After [cat < in.txt > out.txt] the
    command [ls] is parsed with both flags 0 and its child opens no file. *)
Theorem directives_reset_each_iteration (o : os) (g : shell) :
  let g' := snd (shell_loop_parse o g) in
  shell_loop_parse o g
  = (g0 <- get ;;
     background_check o (numBGProcesses g0) (bgTracker g0) ;;;
     printf (lit ": ") ;;;
     line <- shell_read_line o ;;
     shell_split_line line) (set_out 0 (set_in 0 g)) /\
  (in_ g' = 0 \/
   (in_ g' = 1 /\
    exists line, expanded_line o = Ret line /\ lit "<" ∈ strtok_tokens line /\
                 named_in (strtok_tokens line) (inputFile g'))) /\
  (out g' = 0 \/
   (out g' = 1 /\
    exists line, expanded_line o = Ret line /\ lit ">" ∈ strtok_tokens line /\
                 named_in (strtok_tokens line) (outputFile g'))) /\
  let g1 := snd (shell_loop_body (os_command "cat < in.txt > out.txt" 4321)
                   initial_shell) in
  let g2 := snd (shell_loop_parse (os_command "ls" 4322) g1) in
  (in_ g1 = 1 /\ out g1 = 1 /\
   inputFile g1 = Some (lit "in.txt") /\ outputFile g1 = Some (lit "out.txt")) /\
  fst (shell_loop_parse (os_command "ls" 4322) g1) = Ret [lit "ls"] /\
  in_ g2 = 0 /\ out g2 = 0 /\
  shell_launch (os_command "ls" 0) [lit "ls"] g2
  = (Execed (lit "ls") [lit "ls"],
     set_events (events g2 ++ [Sigaction SIGTSTP_ SIG_IGN; Sigaction SIGINT SIG_DFL])
       (set_SIGINT_handler SIG_DFL (set_SIGTSTP_handler SIG_IGN g2))).
Proof.
  intros g'. split; [reflexivity|].
  enough (H : (in_ g' = 0 \/
                (in_ g' = 1 /\ exists line, expanded_line o = Ret line /\
                                 lit "<" ∈ strtok_tokens line /\
                                 named_in (strtok_tokens line) (inputFile g'))) /\
               (out g' = 0 \/
                (out g' = 1 /\ exists line, expanded_line o = Ret line /\
                                 lit ">" ∈ strtok_tokens line /\
                                 named_in (strtok_tokens line) (outputFile g')))).
  { destruct H as [Ha Hb]. split; [exact Ha|]. split; [exact Hb|].
    vm_compute. repeat split; reflexivity. }
  subst g'. unfold shell_loop_parse. rewrite !bind_modify, bind_get.
  set (g0 := set_out 0 (set_in 0 g)).
  assert (H0 : in_ g0 = 0 /\ out g0 = 0) by (split; reflexivity).
  assert (Hstop : forall gx, same_directives g0 gx ->
            (in_ gx = 0 \/ (in_ gx = 1 /\ exists line, expanded_line o = Ret line /\
                                       lit "<" ∈ strtok_tokens line /\
                                       named_in (strtok_tokens line) (inputFile gx))) /\
            (out gx = 0 \/ (out gx = 1 /\ exists line, expanded_line o = Ret line /\
                                       lit ">" ∈ strtok_tokens line /\
                                       named_in (strtok_tokens line) (outputFile gx)))).
  { intros gx [Hi Ho]. destruct H0 as [H0i H0o]. split; left; congruence. }
  pose proof (background_check_loop_same_directives o (bgTracker g0) 0
                (Z.to_nat (numBGProcesses g0)) g0) as Hbg.
  fold (background_check o (numBGProcesses g0) (bgTracker g0)) in Hbg.
  destruct (bind_cases (background_check o (numBGProcesses g0) (bgTracker g0))
              (fun _ => printf (lit ": ") ;;; line <- shell_read_line o ;;
                        shell_split_line line) g0) as [(a & _ & ->)|[_ ->]];
    [|apply Hstop; exact Hbg].
  set (g1 := snd (background_check o (numBGProcesses g0) (bgTracker g0) g0)) in *.
  rewrite bind_printf.
  set (g2 := set_events (events g1 ++ [Printf (lit ": ")]) g1).
  assert (H2 : same_directives g0 g2).
  { eapply same_directives_trans; [exact Hbg|]. split; reflexivity. }
  pose proof (shell_read_line_same_directives o g2) as Hrd.
  destruct (bind_cases (shell_read_line o) (fun line => shell_split_line line) g2)
    as [(line & Hline & ->)|[_ ->]];
    [|apply Hstop; eapply same_directives_trans; eassumption].
  apply shell_read_line_Ret in Hline.
  set (g3 := snd (shell_read_line o g2)) in *.
  assert (H3 : same_directives g0 g3)
    by (eapply same_directives_trans; eassumption).
  destruct H3 as [H3i H3o]. destruct H0 as [H0i H0o].
  destruct (shell_split_line_directives line g3) as [Hi Ho].
  split.
  - destruct Hi as [Hi|(Hi & Hin & Hf)]; [left; congruence|right].
    split; [exact Hi|]. exists line. auto.
  - destruct Ho as [Ho|(Ho & Hin & Hf)]; [left; congruence|right].
    split; [exact Ho|]. exists line. auto.
Qed.

(** ** The tokens of a line *)

Lemma scan_token_rest_length (s : cstring) :
  (length (snd (scan_token s)) <= length s)%nat.
Proof.
  induction s as [|c s IH]; simpl; [lia|].
  destruct (is_delim c); simpl; [lia|].
  destruct (scan_token s) as [t r]. simpl in *. lia.
Qed.

Lemma skip_delims_length (s : cstring) : (length (skip_delims s) <= length s)%nat.
Proof. induction s as [|c s IH]; simpl; [lia|]. destruct (is_delim c); simpl; lia. Qed.

Lemma strtok_shorter (s t s' : cstring) :
  strtok s = Some (t, s') -> (length s' < length s)%nat.
Proof.
  unfold strtok. pose proof (skip_delims_length s) as H1.
  destruct (skip_delims s) as [|c r] eqn:E; [discriminate|].
  intros [= Hscan]. pose proof (scan_token_rest_length r) as H2.
  simpl in Hscan, H1. destruct (is_delim c).
  - injection Hscan as _ <-. lia.
  - destruct (scan_token r) as [t' r']. injection Hscan as _ <-. simpl in H2. lia.
Qed.

(** The fuel [strtok_tokens] gives is enough: more changes nothing. *)
Lemma strtok_all_fuel (f1 : nat) :
  forall (f2 : nat) (s : cstring),
    (length s < f1)%nat -> (length s < f2)%nat ->
    strtok_all f1 s = strtok_all f2 s.
Proof.
  induction f1 as [|f1 IH]; intros f2 s H1 H2; [lia|].
  destruct f2 as [|f2]; [lia|]. simpl.
  destruct (strtok s) as [[t s']|] eqn:E; [|reflexivity].
  apply strtok_shorter in E. f_equal. apply IH; lia.
Qed.

Lemma strtok_tokens_unfold (s : cstring) :
  strtok_tokens s =
  match strtok s with
  | None => []
  | Some (t, s') => t :: strtok_tokens s'
  end.
Proof.
  unfold strtok_tokens at 1. simpl.
  destruct (strtok s) as [[t s']|] eqn:E; [|reflexivity].
  apply strtok_shorter in E. f_equal. apply strtok_all_fuel; lia.
Qed.

Lemma skip_delims_all (s : cstring) :
  forallb is_delim s = true -> skip_delims s = [].
Proof.
  induction s as [|c s IH]; simpl; [reflexivity|].
  destruct (is_delim c); simpl; [exact IH|discriminate].
Qed.

Lemma strtok_tokens_delims (s : cstring) :
  forallb is_delim s = true -> strtok_tokens s = [].
Proof.
  intros H. rewrite strtok_tokens_unfold. unfold strtok.
  rewrite (skip_delims_all s H). reflexivity.
Qed.

(** A line cut at a delimiter: the tokens of both parts, in order. *)
Lemma strtok_tokens_cut (d : ascii) (b : cstring) :
  is_delim d = true ->
  forall (n : nat) (a : cstring),
    (length a <= n)%nat ->
    strtok_tokens (a ++ d :: b) = strtok_tokens a ++ strtok_tokens b.
Proof.
  intros Hd. induction n as [|n IH]; intros a Hlen.
  { destruct a; [|simpl in Hlen; lia].
    rewrite (strtok_tokens_unfold ([] ++ d :: b)), (strtok_tokens_unfold b).
    unfold strtok. simpl. rewrite Hd. reflexivity. }
  destruct a as [|c a].
  { rewrite (strtok_tokens_unfold ([] ++ d :: b)), (strtok_tokens_unfold b).
    unfold strtok. simpl. rewrite Hd. reflexivity. }
  simpl in Hlen.
  destruct (is_delim c) eqn:Ec.
  - (* a leading delimiter is skipped on both sides *)
    assert (H1 : strtok_tokens ((c :: a) ++ d :: b) = strtok_tokens (a ++ d :: b)).
    { rewrite (strtok_tokens_unfold ((c :: a) ++ d :: b)),
        (strtok_tokens_unfold (a ++ d :: b)).
      unfold strtok. simpl. rewrite Ec. reflexivity. }
    assert (H2 : strtok_tokens (c :: a) = strtok_tokens a).
    { rewrite (strtok_tokens_unfold (c :: a)), (strtok_tokens_unfold a).
      unfold strtok. simpl. rewrite Ec. reflexivity. }
    rewrite H1, H2. apply IH. lia.
  - (* a token starts at [c] *)
    assert (Hscan : forall u : cstring,
              scan_token (u ++ d :: b)
              = (fst (scan_token u),
                 if forallb (fun x => negb (is_delim x)) u then b
                 else snd (scan_token u) ++ d :: b)).
    { induction u as [|x u IHu]; simpl; [rewrite Hd; reflexivity|].
      destruct (is_delim x); simpl; [reflexivity|].
      rewrite IHu. destruct (scan_token u) as [t r]. reflexivity. }
    assert (Hnone : forall u : cstring,
              forallb (fun x => negb (is_delim x)) u = true ->
              snd (scan_token u) = []).
    { induction u as [|x u IHu]; simpl; [reflexivity|].
      destruct (is_delim x); simpl; [discriminate|].
      intros H. specialize (IHu H). destruct (scan_token u) as [t r]. exact IHu. }
    rewrite (strtok_tokens_unfold ((c :: a) ++ d :: b)),
      (strtok_tokens_unfold (c :: a)).
    unfold strtok. cbn [skip_delims app]. rewrite Ec.
    change (c :: a ++ d :: b) with ((c :: a) ++ d :: b).
    rewrite (Hscan (c :: a)).
    pose proof (scan_token_rest_length (c :: a)) as Hrest.
    pose proof (Hnone (c :: a)) as Hnone'.
    destruct (scan_token (c :: a)) as [t r] eqn:Esc. cbn [fst snd] in *.
    assert (Hr : (length r <= n)%nat).
    { simpl in Esc. rewrite Ec in Esc. pose proof (scan_token_rest_length a) as H.
      destruct (scan_token a) as [t' r']. injection Esc as _ <-. simpl in H. lia. }
    destruct (forallb (fun x => negb (is_delim x)) (c :: a)).
    + rewrite (Hnone' eq_refl). rewrite (strtok_tokens_delims []) by reflexivity.
      reflexivity.
    + rewrite (IH r Hr). reflexivity.
Qed.

(** A line that ends in the token [&], with blanks around it, has the tokens
    of the line without it, and then [&]. *)
Lemma trailing_ampersand_tokens (pre trail : cstring) :
  forallb is_delim trail = true ->
  pre = [] \/ (exists pre' d, pre = pre' ++ [d] /\ is_delim d = true) ->
  strtok_tokens (pre ++ lit "&" ++ trail) = strtok_tokens (pre ++ trail) ++ [lit "&"].
Proof.
  intros Htrail Hpre.
  assert (Hamp : strtok_tokens (lit "&" ++ trail) = [lit "&"]).
  { destruct trail as [|d tr]; [reflexivity|].
    simpl in Htrail. apply andb_prop in Htrail as [Hd Htr].
    rewrite (strtok_tokens_cut d tr Hd _ (lit "&") (le_n _)).
    rewrite (strtok_tokens_delims tr Htr). reflexivity. }
  assert (Hshort : forall a, strtok_tokens (a ++ trail) = strtok_tokens a).
  { intros a. destruct trail as [|d tr]; [rewrite app_nil_r; reflexivity|].
    simpl in Htrail. apply andb_prop in Htrail as [Hd Htr].
    rewrite (strtok_tokens_cut d tr Hd _ a (le_n _)).
    rewrite (strtok_tokens_delims tr Htr). apply app_nil_r. }
  rewrite Hshort.
  destruct Hpre as [->|(pre' & d & -> & Hd)].
  - change ([] ++ lit "&" ++ trail) with (lit "&" ++ trail).
    rewrite Hamp. reflexivity.
  - rewrite <- app_assoc. change ([d] ++ lit "&" ++ trail) with (d :: (lit "&" ++ trail)).
    rewrite (strtok_tokens_cut d _ Hd _ pre' (le_n _)), Hamp.
    rewrite (strtok_tokens_cut d [] Hd _ pre' (le_n _)).
    rewrite (strtok_tokens_delims []) by reflexivity. rewrite app_nil_r. reflexivity.
Qed.

(** ** The trailing [&] when background execution is switched off *)

Lemma split_loop_cons (token : cstring) (rest tokens : list cstring) (bufsize : nat)
    (g : shell) :
  split_loop (token :: rest) tokens bufsize g =
  if streq token (lit ">") then
    match rest with
    | [] => (tokens, grow bufsize (length tokens), set_outputFile None (set_out 1 g))
    | file :: rest' =>
        split_loop rest' tokens (grow bufsize (length tokens))
          (set_outputFile (Some file) (set_out 1 g))
    end
  else if streq token (lit "<") then
    match rest with
    | [] => (tokens, grow bufsize (length tokens), set_inputFile None (set_in 1 g))
    | file :: rest' =>
        split_loop rest' tokens (grow bufsize (length tokens))
          (set_inputFile (Some file) (set_in 1 g))
    end
  else split_loop rest (tokens ++ [token]) (grow bufsize (length tokens)) g.
Proof. reflexivity. Qed.

Lemma split_loop_stored (n : nat) :
  forall (rest tokens : list cstring) (bufsize : nat) (g : shell),
    (length rest <= n)%nat ->
    fst (fst (split_loop rest tokens bufsize g)) = tokens ++ stored_tokens rest.
Proof.
  induction n as [|n IH]; intros rest tokens bufsize g Hlen.
  { destruct rest; simpl in *; [rewrite app_nil_r; reflexivity|lia]. }
  destruct rest as [|token rest]; [simpl; rewrite app_nil_r; reflexivity|].
  rewrite split_loop_cons. cbn [stored_tokens]. unfold is_redirect. simpl in Hlen.
  destruct (streq token (lit ">")); [|destruct (streq token (lit "<"))]; cbn [orb].
  - destruct rest as [|file rest]; [simpl; rewrite app_nil_r; reflexivity|].
    apply IH. simpl in Hlen. lia.
  - destruct rest as [|file rest]; [simpl; rewrite app_nil_r; reflexivity|].
    apply IH. simpl in Hlen. lia.
  - rewrite IH by lia. rewrite <- app_assoc. reflexivity.
Qed.

(** A further plain token after a line with no pending redirection is stored
    at the end, and nothing else changes. *)
Lemma split_loop_snoc (t : cstring) (n : nat) :
  is_redirect t = false ->
  forall (rest tokens : list cstring) (bufsize : nat) (g : shell),
    (length rest <= n)%nat ->
    pending_redirection rest = false ->
    exists bufsize',
      split_loop (rest ++ [t]) tokens bufsize g
      = (fst (fst (split_loop rest tokens bufsize g)) ++ [t], bufsize',
         snd (split_loop rest tokens bufsize g)).
Proof.
  intros Ht. unfold is_redirect in Ht. apply orb_false_elim in Ht as [Ht1 Ht2].
  induction n as [|n IH]; intros rest tokens bufsize g Hlen Hpend.
  { destruct rest; simpl in Hlen; [|lia].
    simpl app. rewrite split_loop_cons, Ht1, Ht2. eexists. reflexivity. }
  destruct rest as [|token rest].
  { simpl app. rewrite split_loop_cons, Ht1, Ht2. eexists. reflexivity. }
  simpl in Hlen. cbn [pending_redirection] in Hpend. unfold is_redirect in Hpend.
  change ((token :: rest) ++ [t]) with (token :: (rest ++ [t])).
  rewrite !split_loop_cons.
  destruct (streq token (lit ">")); [|destruct (streq token (lit "<"))];
    cbn [orb] in Hpend.
  - destruct rest as [|file rest]; [discriminate|].
    apply IH; [simpl in Hlen; lia|exact Hpend].
  - destruct rest as [|file rest]; [discriminate|].
    apply IH; [simpl in Hlen; lia|exact Hpend].
  - apply IH; [lia|exact Hpend].
Qed.

(** The loop writes the two flags and the two file names only. *)
Lemma split_loop_frame (n : nat) :
  forall (rest tokens : list cstring) (bufsize : nat) (g : shell),
    (length rest <= n)%nat ->
    let g' := snd (split_loop rest tokens bufsize g) in
    backgroundAllowed g' = backgroundAllowed g /\
    isBackground g' = isBackground g /\
    status g' = status g /\
    bgTracker g' = bgTracker g /\
    numBGProcesses g' = numBGProcesses g /\
    events g' = events g.
Proof.
  induction n as [|n IH]; intros rest tokens bufsize g Hlen.
  { destruct rest; simpl in *; [repeat split|lia]. }
  destruct rest as [|token rest]; [simpl; repeat split|].
  rewrite split_loop_cons. simpl in Hlen.
  destruct (streq token (lit ">")); [|destruct (streq token (lit "<"))].
  - destruct rest as [|file rest]; [simpl; repeat split|].
    apply (IH rest tokens _ (set_outputFile (Some file) (set_out 1 g))).
    simpl in Hlen. lia.
  - destruct rest as [|file rest]; [simpl; repeat split|].
    apply (IH rest tokens _ (set_inputFile (Some file) (set_in 1 g))).
    simpl in Hlen. lia.
  - apply IH. lia.
Qed.

(** With [backgroundAllowed] at 0, a line whose last token is [&] is split as
    a line with the same tokens but that last one. *)
Lemma split_line_without_last_ampersand
    (line_bg line : cstring) (g g' : shell) (args : list cstring) :
  backgroundAllowed g = 0 ->
  strtok_tokens line_bg = strtok_tokens line ++ [lit "&"] ->
  pending_redirection (strtok_tokens line) = false ->
  last (stored_tokens (strtok_tokens line)) <> Some (lit "&") ->
  shell_split_line line g = (Ret args, g') ->
  shell_split_line line_bg g = (Ret args, g') /\
  isBackground g' = 0 /\
  args = stored_tokens (strtok_tokens line).
Proof.
  intros Hmode Htoks Hpend Hlast Hshort.
  unfold shell_split_line in *. rewrite bind_modify, bind_get in *.
  rewrite Htoks.
  destruct (split_loop_snoc (lit "&") _ eq_refl (strtok_tokens line) []
              TOK_BUFFSIZE (set_isBackground 0 g) (le_n _) Hpend) as [bs' Hsnoc].
  rewrite Hsnoc. clear Hsnoc.
  pose proof (split_loop_stored _ (strtok_tokens line) [] TOK_BUFFSIZE
                (set_isBackground 0 g) (le_n _)) as Hst.
  pose proof (split_loop_frame _ (strtok_tokens line) [] TOK_BUFFSIZE
                (set_isBackground 0 g) (le_n _)) as (Hba & Hib & _).
  destruct (split_loop (strtok_tokens line) [] TOK_BUFFSIZE (set_isBackground 0 g))
    as [[tokens bufsize] g1].
  cbn [fst snd backgroundAllowed isBackground set_isBackground] in *.
  rewrite app_nil_l in Hst. subst tokens.
  rewrite bind_modify in *.
  rewrite last_snoc, streq_refl, removelast_last.
  rewrite Hba, Hmode. cbn [truthy Z.eqb negb when]. rewrite bind_ret.
  destruct (last (stored_tokens (strtok_tokens line))) as [t|] eqn:El.
  - destruct (streq t (lit "&")) eqn:Et.
    { apply streq_true in Et. subst t. contradiction. }
    destruct (length (stored_tokens (strtok_tokens line)) <? bufsize)%nat;
      [|discriminate].
    injection Hshort as <- <-. auto.
  - destruct (length (stored_tokens (strtok_tokens line)) <? bufsize)%nat;
      [|discriminate].
    injection Hshort as <- <-. auto.
Qed.

(** C5 (as amended): with [backgroundAllowed] at 0, a line that ends in the
    token [&] is split into the same argument vector and the same globals,
    and so the same directives and a background flag of 0, as the line
    without that token, as long as the shorter line is split without fault,
    does not end in a [<] or [>] waiting for its file name, and the tokens it
    stores do not end in [&] themselves. *)
Theorem background_gating_when_disallowed
    (pre trail : cstring) (g g' : shell) (args : list cstring) :
  backgroundAllowed g = 0 ->
  forallb is_delim trail = true ->
  pre = [] \/ (exists pre' d, pre = pre' ++ [d] /\ is_delim d = true) ->
  pending_redirection (strtok_tokens (pre ++ trail)) = false ->
  last (stored_tokens (strtok_tokens (pre ++ trail))) <> Some (lit "&") ->
  shell_split_line (pre ++ trail) g = (Ret args, g') ->
  shell_split_line (pre ++ lit "&" ++ trail) g = (Ret args, g') /\
  isBackground g' = 0 /\
  args = stored_tokens (strtok_tokens (pre ++ trail)).
Proof.
  intros Hmode Htrail Hpre Hpend Hlast Hshort.
  apply (split_line_without_last_ampersand _ (pre ++ trail)); try assumption.
  apply trailing_ampersand_tokens; assumption.
Qed.

Lemma background_gating_when_disallowed_witness :
  let g := set_backgroundAllowed 0 initial_shell in
  shell_split_line (lit "ls -l > out.txt &" ++ [NL]) g
  = shell_split_line (lit "ls -l > out.txt " ++ [NL]) g /\
  fst (shell_split_line (lit "ls -l > out.txt &" ++ [NL]) g)
  = Ret [lit "ls"; lit "-l"] /\
  isBackground (snd (shell_split_line (lit "ls -l > out.txt &" ++ [NL]) g)) = 0.
Proof.
  intros g.
  destruct (shell_split_line (lit "ls -l > out.txt " ++ [NL]) g) as [r g'] eqn:E.
  assert (Hr : r = Ret [lit "ls"; lit "-l"]).
  { apply (f_equal fst) in E. vm_compute in E. symmetry. exact E. }
  subst r.
  pose proof (background_gating_when_disallowed
                (lit "ls -l > out.txt ") [NL] g g' [lit "ls"; lit "-l"]
                eq_refl eq_refl
                (or_intror (ex_intro _ (lit "ls -l > out.txt")
                              (ex_intro _ " "%char (conj eq_refl eq_refl))))
                eq_refl ltac:(vm_compute; discriminate) E) as (H1 & H2 & _).
  change (lit "ls -l > out.txt &" ++ [NL])
    with (lit "ls -l > out.txt " ++ lit "&" ++ [NL]).
  rewrite H1. auto.
Defined.

(** With [backgroundAllowed] at 0 the line [ls & &] gives the argument vector
    [ls &]; without its last token, the line [ls &] gives [ls]. *)
Lemma background_gating_counterexample :
  let g := set_backgroundAllowed 0 initial_shell in
  let pre := lit "ls & " in
  let trail := [NL] in
  pre ++ lit "&" ++ trail = lit "ls & &" ++ [NL] /\
  fst (shell_split_line (pre ++ lit "&" ++ trail) g) = Ret [lit "ls"; lit "&"] /\
  fst (shell_split_line (pre ++ trail) g) = Ret [lit "ls"] /\
  isBackground (snd (shell_split_line (pre ++ lit "&" ++ trail) g)) = 0 /\
  shell_split_line (pre ++ lit "&" ++ trail) g <> shell_split_line (pre ++ trail) g.
Proof.
  intros g pre trail. repeat split; try reflexivity.
  intros H. apply (f_equal fst) in H. vm_compute in H. discriminate.
Qed.

(** ** Expansion of [$$] *)

Lemma expand_spec_cons (pid : cstring) c1 c2 rest :
  expand_spec pid (c1 :: c2 :: rest) =
  if bool_decide (c1 = "$"%char) && bool_decide (c2 = "$"%char)
  then pid ++ expand_spec pid rest
  else c1 :: expand_spec pid (c2 :: rest).
Proof. reflexivity. Qed.

Lemma strstr_marker_nil : strstr [] (lit "$$") = None.
Proof. reflexivity. Qed.

Lemma strstr_marker_one c : strstr [c] (lit "$$") = None.
Proof.
  cbn [strstr lit list_ascii_of_string length take].
  assert (H : streq [c] ["$"%char; "$"%char] = false)
    by (apply streq_false; congruence).
  rewrite H. reflexivity.
Qed.

Lemma strstr_marker_cons c1 c2 rest :
  strstr (c1 :: c2 :: rest) (lit "$$") =
  if bool_decide (c1 = "$"%char) && bool_decide (c2 = "$"%char) then Some 0%nat
  else S <$> strstr (c2 :: rest) (lit "$$").
Proof.
  cbn [strstr lit list_ascii_of_string length take].
  change (take 0 rest) with (@nil ascii).
  destruct (bool_decide (c1 = "$"%char)) eqn:E1;
    [destruct (bool_decide (c2 = "$"%char)) eqn:E2|]; cbn [andb].
  - apply bool_decide_eq_true in E1, E2. subst. reflexivity.
  - apply bool_decide_eq_false in E2.
    assert (H : streq [c1; c2] ["$"%char; "$"%char] = false)
      by (apply streq_false; congruence).
    rewrite H. reflexivity.
  - apply bool_decide_eq_false in E1.
    assert (H : streq [c1; c2] ["$"%char; "$"%char] = false)
      by (apply streq_false; congruence).
    rewrite H. reflexivity.
Qed.

(** [expand_spec] in terms of the first occurrence [strstr] finds. *)
Lemma expand_spec_strstr (pid s : cstring) :
  match strstr s (lit "$$") with
  | None => expand_spec pid s = s
  | Some k =>
      (k + 2 <= length s)%nat /\
      expand_spec pid s = take k s ++ pid ++ expand_spec pid (drop (k + 2) s)
  end.
Proof.
  induction s as [|c1 tl IH]; [reflexivity|].
  destruct tl as [|c2 rest]; [rewrite strstr_marker_one; reflexivity|].
  rewrite strstr_marker_cons, expand_spec_cons.
  destruct (bool_decide (c1 = "$"%char) && bool_decide (c2 = "$"%char)).
  - split; [simpl; lia|reflexivity].
  - destruct (strstr (c2 :: rest) (lit "$$")) as [k|]; cbn [fmap option_fmap option_map].
    + destruct IH as [Hk IH]. split; [simpl in *; lia|].
      rewrite IH. reflexivity.
    + rewrite IH. reflexivity.
Qed.

Lemma strstr_skip_prefix (X R : cstring) :
  "$"%char ∉ X ->
  strstr (X ++ R) (lit "$$") = (fun k => (length X + k)%nat) <$> strstr R (lit "$$").
Proof.
  induction X as [|x X IH]; intros Hx.
  - change ([] ++ R) with R. destruct (strstr R (lit "$$")); reflexivity.
  - apply not_elem_of_cons in Hx as [Hne HX].
    assert (Hx : bool_decide (x = "$"%char) = false)
      by (apply bool_decide_eq_false; congruence).
    change ((x :: X) ++ R) with (x :: (X ++ R)).
    specialize (IH HX).
    destruct (X ++ R) as [|c2 rest] eqn:E.
    + destruct X; [|discriminate]. simpl in E. subst R.
      rewrite strstr_marker_one. reflexivity.
    + rewrite strstr_marker_cons, Hx. cbn [andb]. rewrite IH.
      destruct (strstr R (lit "$$")); reflexivity.
Qed.

Lemma expand_spec_length_ge (pid : cstring) :
  (2 <= length pid)%nat ->
  forall s, (length s <= length (expand_spec pid s))%nat.
Proof.
  intros Hpid s. induction s as [s IH] using (induction_ltof1 _ (@length ascii)).
  unfold ltof in IH.
  destruct s as [|c1 [|c2 rest]]; [reflexivity..|].
  rewrite expand_spec_cons.
  destruct (bool_decide (c1 = "$"%char) && bool_decide (c2 = "$"%char)).
  - rewrite length_app. specialize (IH rest ltac:(simpl; lia)). simpl. lia.
  - specialize (IH (c2 :: rest) ltac:(simpl; lia)). simpl in *. lia.
Qed.

(** The loop computes the expansion as long as the line, before and after,
    fits the static buffer and the buffer behind [line]. *)
Lemma expand_loop_correct (cap : nat) (pid : cstring) :
  pid <> [] -> "$"%char ∉ pid ->
  forall (fuel : nat) (A R : cstring) (p : nat),
    (length R <= fuel)%nat ->
    (p <= length A)%nat ->
    "$"%char ∉ drop p A ->
    (length (A ++ R) + 1 <= Nat.min BUFFER_SIZE cap)%nat ->
    (length (A ++ expand_spec pid R) + 1 <= Nat.min BUFFER_SIZE cap)%nat ->
    expand_loop fuel cap pid (A ++ R) p = Ret (A ++ expand_spec pid R).
Proof.
  intros Hne Hpid.
  assert (Hlen : (1 <= length pid)%nat) by (destruct pid; simpl; [congruence|lia]).
  induction fuel as [|fuel IH]; intros A R p Hfuel Hp Hclean Hb1 Hb2.
  - destruct R; [|simpl in Hfuel; lia].
    pose proof (strstr_skip_prefix (drop p A) [] Hclean) as H.
    rewrite app_nil_r in H. rewrite strstr_marker_nil in H.
    cbn [expand_loop expand_spec]. rewrite app_nil_r, H. reflexivity.
  - cbn [expand_loop].
    rewrite drop_app_le by exact Hp.
    rewrite (strstr_skip_prefix _ R Hclean).
    pose proof (expand_spec_strstr pid R) as HR.
    destruct (strstr R (lit "$$")) as [k|]; cbn [fmap option_fmap option_map].
    2:{ rewrite HR. reflexivity. }
    destruct HR as [Hk HR].
    rewrite length_drop.
    replace (p + (length A - p + k))%nat with (length A + k)%nat by lia.
    rewrite take_app_add.
    replace (length A + k + 2)%nat with (length A + (k + 2))%nat by lia.
    rewrite drop_app_add.
    set (A' := A ++ take k R ++ pid). set (R' := drop (k + 2) R).
    assert (Hbuf : ((A ++ take k R) ++ pid) ++ R' = A' ++ R').
    { unfold A'. rewrite <- !app_assoc. reflexivity. }
    rewrite Hbuf.
    assert (Hfinal : A' ++ expand_spec pid R' = A ++ expand_spec pid R).
    { unfold A', R'. rewrite HR, <- !app_assoc. reflexivity. }
    assert (HlenR' : length R' = (length R - (k + 2))%nat)
      by (unfold R'; apply length_drop).
    assert (HlenA' : length A' = (length A + k + length pid)%nat).
    { unfold A'. rewrite !length_app, length_take. lia. }
    assert (Hb : (length (A' ++ R') + 1 <= Nat.min BUFFER_SIZE cap)%nat).
    { destruct (le_lt_dec 2 (length pid)) as [H2|H2].
      - pose proof (expand_spec_length_ge pid H2 R') as Hge.
        rewrite <- Hfinal in Hb2. rewrite length_app in *. lia.
      - rewrite length_app in *. lia. }
    assert (Hb' : (length (A' ++ R') + 1 <=? BUFFER_SIZE)%nat = true)
      by (apply Nat.leb_le; lia).
    assert (Hc' : (length (A' ++ R') + 1 <=? cap)%nat = true)
      by (apply Nat.leb_le; lia).
    rewrite Hb', Hc'. rewrite <- Hfinal.
    apply IH.
    + lia.
    + lia.
    + unfold A'. rewrite app_assoc.
      replace (length A + k + 1)%nat with (length (A ++ take k R) + 1)%nat
        by (rewrite length_app, length_take; lia).
      rewrite drop_app_add.
      intros Hin. apply Hpid. apply (subseteq_drop 1 pid). exact Hin.
    + exact Hb.
    + rewrite Hfinal. exact Hb2.
Qed.

(** Whatever the sizes, the fuel suffices: the loop either computes the
    expansion or writes past the end of a buffer. *)
Lemma expand_loop_outcome (cap : nat) (pid : cstring) :
  pid <> [] -> "$"%char ∉ pid ->
  forall (fuel : nat) (A R : cstring) (p : nat),
    (length R <= fuel)%nat ->
    (p <= length A)%nat ->
    "$"%char ∉ drop p A ->
    expand_loop fuel cap pid (A ++ R) p = Ret (A ++ expand_spec pid R) \/
    expand_loop fuel cap pid (A ++ R) p = Undefined.
Proof.
  intros Hne Hpid.
  assert (Hlen : (1 <= length pid)%nat) by (destruct pid; simpl; [congruence|lia]).
  induction fuel as [|fuel IH]; intros A R p Hfuel Hp Hclean.
  - destruct R; [|simpl in Hfuel; lia].
    pose proof (strstr_skip_prefix (drop p A) [] Hclean) as H.
    rewrite app_nil_r in H. rewrite strstr_marker_nil in H.
    cbn [expand_loop expand_spec]. rewrite app_nil_r, H. left. reflexivity.
  - cbn [expand_loop].
    rewrite drop_app_le by exact Hp.
    rewrite (strstr_skip_prefix _ R Hclean).
    pose proof (expand_spec_strstr pid R) as HR.
    destruct (strstr R (lit "$$")) as [k|]; cbn [fmap option_fmap option_map].
    2:{ rewrite HR. left. reflexivity. }
    destruct HR as [Hk HR].
    rewrite length_drop.
    replace (p + (length A - p + k))%nat with (length A + k)%nat by lia.
    rewrite take_app_add.
    replace (length A + k + 2)%nat with (length A + (k + 2))%nat by lia.
    rewrite drop_app_add.
    set (A' := A ++ take k R ++ pid). set (R' := drop (k + 2) R).
    assert (Hbuf : ((A ++ take k R) ++ pid) ++ R' = A' ++ R').
    { unfold A'. rewrite <- !app_assoc. reflexivity. }
    rewrite Hbuf.
    assert (Hfinal : A' ++ expand_spec pid R' = A ++ expand_spec pid R).
    { unfold A', R'. rewrite HR, <- !app_assoc. reflexivity. }
    destruct (length (A' ++ R') + 1 <=? BUFFER_SIZE)%nat; [|right; reflexivity].
    destruct (length (A' ++ R') + 1 <=? cap)%nat; [|right; reflexivity].
    rewrite <- Hfinal. apply IH.
    + unfold R'. rewrite length_drop. lia.
    + unfold A'. rewrite !length_app, length_take. lia.
    + unfold A'. rewrite app_assoc.
      replace (length A + k + 1)%nat with (length (A ++ take k R) + 1)%nat
        by (rewrite length_app, length_take; lia).
      rewrite drop_app_add.
      intros Hin. apply Hpid. apply (subseteq_drop 1 pid). exact Hin.
Qed.

(** The digits (and sign) of a number hold no [$]. *)
Lemma string_of_uint_no_dollar (u : Decimal.uint) :
  "$"%char ∉ lit (NilEmpty.string_of_uint u).
Proof.
  induction u; simpl; [apply not_elem_of_nil|..];
    (apply not_elem_of_cons; split; [discriminate|exact IHu]).
Qed.

Lemma fmt_d_no_dollar (z : Z) : "$"%char ∉ fmt_d z.
Proof.
  unfold fmt_d. destruct (Z.to_int z) as [u|u]; simpl.
  - destruct u; try apply (string_of_uint_no_dollar (Decimal.D0 Decimal.Nil));
      apply string_of_uint_no_dollar.
  - apply not_elem_of_cons. split; [discriminate|].
    destruct u; try apply (string_of_uint_no_dollar (Decimal.D0 Decimal.Nil));
      apply string_of_uint_no_dollar.
Qed.

Lemma fmt_d_not_nil (z : Z) : fmt_d z <> [].
Proof.
  unfold fmt_d. destruct (Z.to_int z) as [u|u]; simpl; [|discriminate].
  destruct u; simpl; discriminate.
Qed.

Lemma snprintf_d_pid (z : Z) :
  snprintf_d 10 z <> [] /\ "$"%char ∉ snprintf_d 10 z.
Proof.
  unfold snprintf_d. split.
  - pose proof (fmt_d_not_nil z) as H. destruct (fmt_d z); [congruence|discriminate].
  - intros Hin. apply (fmt_d_no_dollar z). apply (subseteq_take (10 - 1) (fmt_d z)).
    exact Hin.
Qed.

(** After the expansion no [$$] is left. *)
Lemma expand_spec_no_marker (pid : cstring) :
  pid <> [] -> "$"%char ∉ pid ->
  forall s, strstr (expand_spec pid s) (lit "$$") = None.
Proof.
  intros Hne Hpid s.
  induction s as [s IH] using (induction_ltof1 _ (@length ascii)).
  unfold ltof in IH.
  destruct s as [|c1 [|c2 rest]];
    [reflexivity|apply strstr_marker_one|].
  rewrite expand_spec_cons.
  destruct (bool_decide (c1 = "$"%char)) eqn:E1;
    [destruct (bool_decide (c2 = "$"%char)) eqn:E2|]; cbn [andb].
  - rewrite (strstr_skip_prefix _ _ Hpid), (IH rest) by (simpl; lia). reflexivity.
  - pose proof (IH (c2 :: rest) ltac:(simpl; lia)) as IH2.
    destruct rest as [|c3 rest].
    + cbn [expand_spec]. rewrite strstr_marker_cons, E2, andb_false_r.
      rewrite strstr_marker_one. reflexivity.
    + rewrite expand_spec_cons, E2 in *. cbn [andb] in *.
      rewrite strstr_marker_cons, E2, andb_false_r, IH2. reflexivity.
  - pose proof (IH (c2 :: rest) ltac:(simpl; lia)) as IH2.
    destruct (expand_spec pid (c2 :: rest)) as [|d1 ds].
    + apply strstr_marker_one.
    + rewrite strstr_marker_cons, E1. cbn [andb]. rewrite IH2. reflexivity.
Qed.

(** X24: the loop of [shell_read_line] always comes to an end: it returns
    the line read with every [$$] met from left to right replaced by the
    shell's identifier, or it has stored past the end of one of its two
    buffers; it never goes round for ever. *)
Lemma expanded_line_outcome (o : os) :
  expanded_line o
  = Ret (expand_spec (snprintf_d 10 (os_getpid o)) (os_getline o)) \/
  expanded_line o = Undefined.
Proof.
  destruct (snprintf_d_pid (os_getpid o)) as [Hne Hpid].
  apply (expand_loop_outcome (os_getline_cap o) _ Hne Hpid
           (length (os_getline o)) [] (os_getline o) 0);
    simpl; try lia. apply not_elem_of_nil.
Qed.

(** X23: the expansion the loop of [shell_read_line] computes: for a line that,
    before and after, fits the static buffer of 4096 bytes and the buffer
    [getline] allocated, the line returned is [expand_spec] of the line read,
    with the shell's identifier as printed by [snprintf]. *)
Theorem expansion_within_capacity (o : os) (g : shell) :
  let pid := snprintf_d 10 (os_getpid o) in
  (length (os_getline o) + 1 <= Nat.min BUFFER_SIZE (os_getline_cap o))%nat ->
  (length (expand_spec pid (os_getline o)) + 1
   <= Nat.min BUFFER_SIZE (os_getline_cap o))%nat ->
  expanded_line o = Ret (expand_spec pid (os_getline o)) /\
  strstr (expand_spec pid (os_getline o)) (lit "$$") = None /\
  (os_sigtstp o = 0%nat ->
   shell_read_line o g = (Ret (expand_spec pid (os_getline o)), g)).
Proof.
  intros pid H1 H2. destruct (snprintf_d_pid (os_getpid o)) as [Hne Hpid].
  assert (He : expanded_line o = Ret (expand_spec pid (os_getline o))).
  { unfold expanded_line.
    apply (expand_loop_correct (os_getline_cap o) pid Hne Hpid
             (length (os_getline o)) [] (os_getline o) 0);
      simpl; try lia; try assumption. apply not_elem_of_nil. }
  split; [exact He|]. split; [apply expand_spec_no_marker; assumption|].
  intros Hsig. unfold shell_read_line. rewrite Hsig, He. reflexivity.
Qed.

Lemma expansion_within_capacity_witness :
  expanded_line (os_command "echo $$-$$" 4321) = Ret (lit "echo 1234-1234" ++ [NL]) /\
  expanded_line (os_command "$$$$ $$$" 4321) = Ret (lit "12341234 1234$" ++ [NL]).
Proof.
  split.
  - apply (expansion_within_capacity (os_command "echo $$-$$" 4321) initial_shell);
      vm_compute; lia.
  - apply (expansion_within_capacity (os_command "$$$$ $$$" 4321) initial_shell);
      vm_compute; lia.
Defined.

(** C4 (the code departs from it): on the line [echo $$] followed by 4096
    letters the first pass of the loop builds, in the static buffer of 4096
    bytes, a string of 4107 characters: the copy runs past the end of the
    buffer, where the specification has the line [echo 1234] followed by the
    letters.  Likewise the line [echo] with forty markers, 86 characters in a
    buffer of 120 bytes, grows to 166 characters and is copied back past the
    end of that buffer. *)
Theorem expansion_overruns_static_buffer :
  length (os_getline os_long_line) = 4105%nat /\
  strstr (os_getline os_long_line) (lit "$$") = Some 5%nat /\
  expand_spec (snprintf_d 10 1234) (os_getline os_long_line)
  = lit "echo 1234 " ++ replicate 4096 "a"%char ++ [NL] /\
  (length (expand_spec (snprintf_d 10 1234) (os_getline os_long_line)) + 1
   <=? BUFFER_SIZE)%nat = false /\
  expanded_line os_long_line = Undefined /\
  fst (shell_read_line os_long_line initial_shell) = Undefined /\
  fst (shell_loop [os_long_line] initial_shell) = Undefined /\
  length (os_getline os_many_markers) = 86%nat /\
  length (expand_spec (snprintf_d 10 1234) (os_getline os_many_markers)) = 166%nat /\
  expanded_line os_many_markers = Undefined.
Proof. vm_compute. repeat split; reflexivity. Qed.

(** ** The mode flag over a whole session *)

Lemma keeps_mode_refl g : keeps_mode g g.
Proof. intros H. exact H. Qed.

Lemma keeps_mode_trans g1 g2 g3 :
  keeps_mode g1 g2 -> keeps_mode g2 g3 -> keeps_mode g1 g3.
Proof. unfold keeps_mode. auto. Qed.

Lemma km_ret {A} (a : A) : keeps keeps_mode (ret a).
Proof. apply keeps_ret, keeps_mode_refl. Qed.

Lemma km_get : keeps keeps_mode get.
Proof. apply keeps_get, keeps_mode_refl. Qed.

Lemma km_undefined {A} : keeps keeps_mode (@undefined A).
Proof. apply keeps_undefined, keeps_mode_refl. Qed.

Lemma km_blocked {A} : keeps keeps_mode (@blocked A).
Proof. apply keeps_blocked, keeps_mode_refl. Qed.

Lemma km_exit code : keeps keeps_mode (exit_ code).
Proof. apply keeps_exit, keeps_mode_refl. Qed.

Lemma km_execed f av : keeps keeps_mode (execed f av).
Proof. apply keeps_execed, keeps_mode_refl. Qed.

Lemma km_bind {A B} (c : M A) (k : A -> M B) :
  keeps keeps_mode c -> (forall a, keeps keeps_mode (k a)) ->
  keeps keeps_mode (bind c k).
Proof. apply keeps_bind, keeps_mode_trans. Qed.

Lemma km_when b (c : M unit) : keeps keeps_mode c -> keeps keeps_mode (when b c).
Proof. apply keeps_when, keeps_mode_refl. Qed.

Lemma km_modify (f : shell -> shell) :
  (forall g, backgroundAllowed (f g) = backgroundAllowed g) ->
  keeps keeps_mode (modify f).
Proof.
  intros H. apply keeps_modify. intros g. unfold keeps_mode, mode_is_boolean.
  rewrite H. auto.
Qed.

Lemma km_emit e : keeps keeps_mode (emit e).
Proof. apply km_modify. reflexivity. Qed.

(** Steps through a computation that does not write [backgroundAllowed]. *)
Ltac km :=
  repeat match goal with
    | |- forall _, _ => intros ?
    | |- keeps _ (bind _ _) => apply km_bind
    | |- keeps _ (ret _) => apply km_ret
    | |- keeps _ get => apply km_get
    | |- keeps _ undefined => apply km_undefined
    | |- keeps _ blocked => apply km_blocked
    | |- keeps _ (exit_ _) => apply km_exit
    | |- keeps _ (execed _ _) => apply km_execed
    | |- keeps _ (emit _) => apply km_emit
    | |- keeps _ (modify _) => apply km_modify; reflexivity
    | |- keeps _ (when _ _) => apply km_when
    | |- keeps _ (if ?b then _ else _) => destruct b
    | |- keeps _ (match ?x with _ => _ end) => destruct x
    end.

Lemma catchSIGTSTP_keeps_mode signo : keeps keeps_mode (catchSIGTSTP signo).
Proof.
  intros g [H|H].
  - rewrite (catchSIGTSTP_allowed_off signo g H). right. reflexivity.
  - rewrite (catchSIGTSTP_allowed_on signo g H). left. reflexivity.
Qed.

Lemma deliver_SIGTSTP_keeps_mode n : keeps keeps_mode (deliver_SIGTSTP n).
Proof.
  induction n as [|n IH]; simpl; [apply km_ret|].
  apply km_bind; [apply catchSIGTSTP_keeps_mode|intros _; exact IH].
Qed.

Lemma shell_read_line_keeps_mode o : keeps keeps_mode (shell_read_line o).
Proof.
  unfold shell_read_line. apply km_bind; [apply deliver_SIGTSTP_keeps_mode|].
  km.
Qed.

Lemma shell_split_line_keeps_mode line : keeps keeps_mode (shell_split_line line).
Proof.
  intros g. unfold shell_split_line. rewrite bind_modify, bind_get.
  pose proof (split_loop_frame _ (strtok_tokens line) [] TOK_BUFFSIZE
                (set_isBackground 0 g) (le_n _)) as (Hba & _).
  destruct (split_loop (strtok_tokens line) [] TOK_BUFFSIZE (set_isBackground 0 g))
    as [[tokens bufsize] g1].
  cbn [snd backgroundAllowed set_isBackground] in Hba. rewrite bind_modify.
  assert (Hg1 : keeps_mode g g1).
  { unfold keeps_mode, mode_is_boolean. rewrite Hba. auto. }
  eapply keeps_mode_trans; [exact Hg1|].
  destruct (match last tokens with Some t => streq t (lit "&") | None => false end).
  - destruct (truthy (backgroundAllowed g1)); intros H; exact H.
  - destruct (length tokens <? bufsize)%nat; intros H; exact H.
Qed.

Lemma kill_loop_keeps_mode bg i n : keeps keeps_mode (kill_loop bg i n).
Proof. revert i. induction n as [|n IH]; intros i; simpl; km. apply IH. Qed.

Lemma background_check_loop_keeps_mode o bg i n :
  keeps keeps_mode (background_check_loop o bg i n).
Proof.
  revert i. induction n as [|n IH]; intros i; simpl; [km|].
  destruct (bg !! i) as [p|]; [|km].
  destruct (os_waitpid_nohang o i p) as [wpid st].
  apply km_bind; [unfold printf; km|intros _; apply IH].
Qed.

Lemma wait_loop_keeps_mode answers : keeps keeps_mode (wait_loop answers).
Proof. induction answers as [|w answers IH]; simpl; km; exact IH. Qed.

Lemma shell_launch_keeps_mode o args : keeps keeps_mode (shell_launch o args).
Proof.
  unfold shell_launch, shell_launch_child, shell_launch_parent, bgTracker_store,
    open_, dup2, sigaction, perror, printf.
  km; apply wait_loop_keeps_mode.
Qed.

Lemma shell_execute_keeps_mode o args : keeps keeps_mode (shell_execute o args).
Proof.
  unfold shell_execute. destruct (dispatch args) as [|i|]; [km| |apply shell_launch_keeps_mode].
  destruct i as [|[|[|i]]];
    [change (keeps keeps_mode (shell_cd o args))
    |change (keeps keeps_mode (shell_exit args))
    |change (keeps keeps_mode (shell_status args))
    |change (keeps keeps_mode (@undefined Z))].
  - unfold shell_cd, chdir, perror. km.
  - unfold shell_exit, kill_processes. km. apply kill_loop_keeps_mode.
  - unfold shell_status, printf. km.
  - km.
Qed.

Lemma shell_loop_body_keeps_mode o : keeps keeps_mode (shell_loop_body o).
Proof.
  unfold shell_loop_body, shell_loop_parse, background_check, printf.
  km.
  - apply background_check_loop_keeps_mode.
  - apply shell_read_line_keeps_mode.
  - apply shell_split_line_keeps_mode.
  - apply shell_execute_keeps_mode.
Qed.

Lemma shell_loop_keeps_mode script : keeps keeps_mode (shell_loop script).
Proof.
  induction script as [|o script IH]; simpl; [km|].
  apply km_bind; [apply shell_loop_body_keeps_mode|].
  intros a. destruct (truthy a); [exact IH|km].
Qed.

(** In every session [backgroundAllowed] is 0 or 1, however the session ends. *)
Lemma main_keeps_mode (script : list os) :
  mode_is_boolean (snd (main script initial_shell)).
Proof.
  assert (H : keeps keeps_mode (main script)).
  { unfold main, sigaction. km. apply shell_loop_keeps_mode. }
  apply (H initial_shell). right. reflexivity.
Qed.

(** C9: with [backgroundAllowed] being 0 or 1, a delivery of SIGTSTP returns,
    flips the flag and writes to descriptor 1 the 52 bytes of the entering
    message when the flag was 1, the 32 bytes of the exiting message when it
    was 0; the flag is again 0 or 1, no other global changes, and a second
    delivery brings the flag back.  The flag starts at 1 and is 0 or 1 at the
    end of every session. *)
Theorem catchSIGTSTP_toggles (signo : Z) (g : shell) :
  mode_is_boolean g ->
  let r := catchSIGTSTP signo g in
  fst r = Ret tt /\
  backgroundAllowed (snd r) = 1 - backgroundAllowed g /\
  (backgroundAllowed (snd r) = 0 \/ backgroundAllowed (snd r) = 1) /\
  snd r = set_backgroundAllowed (1 - backgroundAllowed g)
            (set_events
               (events g ++
                [Write 1 (if backgroundAllowed g =? 1 then message_entering
                          else message_exiting); Fflush]) g) /\
  length message_entering = 52%nat /\
  length message_exiting = 32%nat /\
  message_entering
  = [NL] ++ lit "Entering foreground-only mode (& is now ignored)" ++ [NL] ++ lit ": " /\
  message_exiting = [NL] ++ lit "Exiting foreground-only mode" ++ [NL] ++ lit ": " /\
  backgroundAllowed (snd (catchSIGTSTP signo (snd r))) = backgroundAllowed g /\
  backgroundAllowed initial_shell = 1 /\
  forall script : list os, mode_is_boolean (snd (main script initial_shell)).
Proof.
  intros [H|H] r; subst r.
  - rewrite (catchSIGTSTP_allowed_off signo g H), H.
    repeat split; auto using main_keeps_mode.
  - rewrite (catchSIGTSTP_allowed_on signo g H), H.
    repeat split; auto using main_keeps_mode.
Qed.

Lemma catchSIGTSTP_toggles_witness :
  backgroundAllowed initial_shell = 1 /\
  events (snd (catchSIGTSTP SIGTSTP initial_shell))
  = [Write 1 message_entering; Fflush] /\
  backgroundAllowed (snd (catchSIGTSTP SIGTSTP initial_shell)) = 0.
Proof.
  pose proof (catchSIGTSTP_toggles SIGTSTP initial_shell (or_intror eq_refl))
    as (_ & H1 & _ & H2 & _).
  split; [reflexivity|]. split; [rewrite H2; reflexivity|exact H1].
Defined.

(** ** The closing [NULL] of the argument vector *)

(** The array grows only inside the loop: with exactly 64 arguments it is
    full when the loop ends and the closing [NULL] is stored at index 64,
    behind its last element; with 63 or 65 arguments there is room. *)
Lemma argument_vector_terminator_overrun :
  fst (shell_split_line (concat (replicate 63 (lit "a "))) initial_shell)
  = Ret (replicate 63 (lit "a")) /\
  fst (shell_split_line (concat (replicate 64 (lit "a "))) initial_shell)
  = Undefined /\
  fst (shell_split_line (concat (replicate 65 (lit "a "))) initial_shell)
  = Ret (replicate 65 (lit "a")) /\
  fst (shell_split_line (concat (replicate 64 (lit "a ")) ++ lit "&") initial_shell)
  = Ret (replicate 64 (lit "a")).
Proof. vm_compute. repeat split; reflexivity. Qed.

(** * Further properties *)

(** ** The built-in commands *)

(** X1: [shell_cd] calls [chdir] once, on the home directory when there is no
    argument or the argument is [~] and on the argument otherwise, calls
    [perror] exactly when [chdir] does not return 0, changes no global
    variable and returns 1. *)
Theorem shell_cd_behaviour (o : os) (args : list cstring) (g : shell) :
  shell_cd o args g
  = (Ret 1,
     set_events
       (events g ++
        Chdir (cd_target o args) ::
        (if os_chdir o (cd_target o args) =? 0 then []
         else [Perror (lit "smallsh")])) g).
Proof.
  unfold shell_cd, cd_target.
  destruct (args !! 1%nat) as [a|]; [destruct (streq a (lit "~"))|];
    mrun;
    match goal with |- context [os_chdir o ?t =? 0] =>
      destruct (os_chdir o t =? 0) end;
    mrun; rewrite <- ?app_assoc; destruct g; reflexivity.
Qed.

(** [kill_loop] sends SIGKILL to the entries it walks over, in order. *)
Lemma kill_loop_eval (bg : list Z) (n : nat) :
  forall (i : nat) (g : shell),
    (i + n <= length bg)%nat ->
    kill_loop bg i n g
    = (Ret tt, set_events (events g ++ kill_events (drop i bg) n) g).
Proof.
  induction n as [|n IH]; intros i g Hlen.
  - simpl. unfold kill_events. rewrite take_0, app_nil_r. destruct g; reflexivity.
  - cbn [kill_loop].
    destruct (bg !! i) as [p|] eqn:Ep.
    2:{ apply lookup_ge_None in Ep. lia. }
    rewrite bind_emit, IH by lia. cbn [events set_events].
    unfold kill_events. rewrite (drop_S _ _ _ Ep). cbn [take map].
    rewrite <- app_assoc. reflexivity.
Qed.

Lemma kill_processes_eval (size : Z) (bg : list Z) (g : shell) :
  (Z.to_nat size <= length bg)%nat ->
  kill_processes size bg g
  = (Ret tt, set_events (events g ++ kill_events bg (Z.to_nat size)) g).
Proof.
  intros H. unfold kill_processes. rewrite kill_loop_eval by lia. reflexivity.
Qed.

(** X2: with a count [size] within the array, [kill_processes] sends SIGKILL
    to exactly the first [size] entries, in the order of the array, and does
    nothing else; a count of 0 or less sends nothing. *)
Theorem kill_processes_kills_tracked (size : Z) (bg : list Z) (g : shell) :
  (Z.to_nat size <= length bg)%nat ->
  kill_processes size bg g
  = (Ret tt, set_events (events g ++ kill_events bg (Z.to_nat size)) g) /\
  length (kill_events bg (Z.to_nat size)) = Z.to_nat size /\
  (forall i p, (i < Z.to_nat size)%nat -> bg !! i = Some p ->
               kill_events bg (Z.to_nat size) !! i = Some (Kill p SIGKILL)) /\
  (size <= 0 -> kill_processes size bg g = (Ret tt, set_events (events g ++ []) g)).
Proof.
  intros H. split; [apply kill_processes_eval; exact H|].
  unfold kill_events. split; [rewrite length_map, length_take; lia|]. split.
  - intros i p Hi Hp. rewrite list_lookup_fmap, lookup_take_lt by exact Hi.
    rewrite Hp. reflexivity.
  - intros Hs. rewrite kill_processes_eval by exact H.
    replace (Z.to_nat size) with 0%nat by lia. reflexivity.
Qed.

Lemma kill_processes_kills_tracked_witness :
  events (snd (kill_processes 2 [1001; 1002; 0] initial_shell))
  = [Kill 1001 9; Kill 1002 9].
Proof.
  pose proof (kill_processes_kills_tracked 2 [1001; 1002; 0] initial_shell
                ltac:(simpl; lia)) as (H & _).
  rewrite H. reflexivity.
Defined.

(** ** The scan of the registry *)

Lemma background_check_loop_eval (o : os) (bg : list Z) (n : nat) :
  forall (i : nat) (g : shell),
    (i + n <= length bg)%nat ->
    background_check_loop o bg i n g
    = (Ret tt, set_events (events g ++ bg_reports o bg i n) g).
Proof.
  induction n as [|n IH]; intros i g Hlen.
  - simpl. unfold bg_reports. simpl. rewrite app_nil_r. destruct g; reflexivity.
  - cbn [background_check_loop]. unfold bg_reports. cbn [seq map concat].
    destruct (bg !! i) as [p|] eqn:Ep.
    2:{ apply lookup_ge_None in Ep. lia. }
    destruct (os_waitpid_nohang o i p) as [wpid st].
    fold (bg_reports o bg (S i) n).
    destruct (wpid =? p); cbn [when].
    + unfold bg_report.
      destruct (WIFEXITED st); [|destruct (WIFSIGNALED st)];
        rewrite ?bind_printf, ?bind_ret, IH by lia; cbn [events set_events];
        rewrite <- ?app_assoc; reflexivity.
    + rewrite bind_ret, IH by lia. reflexivity.
Qed.

(** X3: with a count within the array, [background_check] returns after
    printing, in the order of the registry, one line for each entry whose
    [waitpid] returned the entry itself with a status that tells an exit or a
    terminating signal, and nothing for the others; it changes no global
    variable: the registry keeps every entry and [status] its value. *)
Theorem background_check_reports (o : os) (size : Z) (bg : list Z) (g : shell) :
  (Z.to_nat size <= length bg)%nat ->
  background_check o size bg g
  = (Ret tt, set_events (events g ++ bg_reports o bg 0 (Z.to_nat size)) g) /\
  (forall i p, bg !! i = Some p -> fst (os_waitpid_nohang o i p) <> p ->
               bg_reports o bg i 1 = []) /\
  (forall i p st, bg !! i = Some p -> os_waitpid_nohang o i p = (p, st) ->
                  bg_reports o bg i 1 = bg_report p st) /\
  (forall a b n, bg_reports o bg a (n + b) = bg_reports o bg a n ++ bg_reports o bg (a + n) b).
Proof.
  intros H. split; [unfold background_check; apply background_check_loop_eval; lia|].
  split; [|split].
  - intros i p Hp Hne. unfold bg_reports. cbn [seq map concat]. rewrite Hp.
    destruct (os_waitpid_nohang o i p) as [wpid st]. simpl in Hne.
    apply Z.eqb_neq in Hne. rewrite Hne. reflexivity.
  - intros i p st Hp Hw. unfold bg_reports. cbn [seq map concat].
    rewrite Hp, Hw, Z.eqb_refl, app_nil_r. reflexivity.
  - intros a b n. unfold bg_reports.
    rewrite seq_app, map_app, concat_app. reflexivity.
Qed.

Lemma background_check_reports_witness :
  let o := {| os_sigtstp := 0; os_getline := []; os_getline_cap := 120;
              os_getpid := 1234; os_getenv_HOME := None; os_chdir := fun _ => 0;
              os_fork := 4321; os_waitpid := [];
              os_waitpid_nohang :=
                (fun i p => if (i =? 1)%nat then (p, W_EXITCODE 3 0) else (0, 0));
              os_open := fun _ _ => 3; os_execvp_ok := true |} in
  events (snd (background_check o 3 [1001; 1002; 1003] initial_shell))
  = [Printf (lit "background pid 1002 is done: exit value 3" ++ [NL])].
Proof.
  intros o.
  pose proof (background_check_reports o 3 [1001; 1002; 1003] initial_shell
                ltac:(simpl; lia)) as (H & _).
  rewrite H. reflexivity.
Defined.


(** ** What each function leaves alone *)

Section Untouched.
Context {T : Type} (proj : shell -> T).
Hypothesis proj_events : forall v g, proj (set_events v g) = proj g.
Hypothesis proj_backgroundAllowed : forall v g, proj (set_backgroundAllowed v g) = proj g.
Hypothesis proj_in : forall v g, proj (set_in v g) = proj g.
Hypothesis proj_out : forall v g, proj (set_out v g) = proj g.
Hypothesis proj_inputFile : forall v g, proj (set_inputFile v g) = proj g.
Hypothesis proj_outputFile : forall v g, proj (set_outputFile v g) = proj g.
Hypothesis proj_isBackground : forall v g, proj (set_isBackground v g) = proj g.
Hypothesis proj_SIGINT_handler : forall v g, proj (set_SIGINT_handler v g) = proj g.
Hypothesis proj_SIGTSTP_handler : forall v g, proj (set_SIGTSTP_handler v g) = proj g.
Hypothesis proj_bgTracker : forall v g, proj (set_bgTracker v g) = proj g.
Hypothesis proj_numBGProcesses : forall v g, proj (set_numBGProcesses v g) = proj g.
Hypothesis proj_status : forall v g, proj (set_status v g) = proj g.

Lemma untouched_refl g : untouched proj g g.
Proof. reflexivity. Qed.

Lemma untouched_trans g1 g2 g3 :
  untouched proj g1 g2 -> untouched proj g2 g3 -> untouched proj g1 g3.
Proof. unfold untouched. congruence. Qed.

(** Steps through a computation built from the setters above. *)
Ltac ut :=
  repeat match goal with
    | |- forall _, _ => intros ?
    | |- keeps _ (bind _ _) => apply (keeps_bind _ untouched_trans)
    | |- keeps _ (ret _) => apply (keeps_ret _ untouched_refl)
    | |- keeps _ get => apply (keeps_get _ untouched_refl)
    | |- keeps _ undefined => apply (keeps_undefined _ untouched_refl)
    | |- keeps _ blocked => apply (keeps_blocked _ untouched_refl)
    | |- keeps _ (exit_ _) => apply (keeps_exit _ untouched_refl)
    | |- keeps _ (execed _ _) => apply (keeps_execed _ untouched_refl)
    | |- keeps _ (emit _) =>
        apply keeps_modify; intros ?; unfold untouched; apply proj_events
    | |- keeps _ (modify _) =>
        apply keeps_modify; intros ?; unfold untouched;
        rewrite ?proj_events, ?proj_backgroundAllowed, ?proj_in, ?proj_out,
          ?proj_inputFile, ?proj_outputFile, ?proj_isBackground,
          ?proj_SIGINT_handler, ?proj_SIGTSTP_handler, ?proj_bgTracker,
          ?proj_numBGProcesses, ?proj_status;
        reflexivity
    | |- keeps _ (when _ _) => apply (keeps_when _ untouched_refl)
    | |- keeps _ (if ?b then _ else _) => destruct b
    | |- keeps _ (match ?x with _ => _ end) => destruct x
    end.

Lemma shell_cd_untouched o args : keeps (untouched proj) (shell_cd o args).
Proof. unfold shell_cd, chdir, perror. ut. Qed.

Lemma kill_loop_untouched bg i n : keeps (untouched proj) (kill_loop bg i n).
Proof. revert i. induction n as [|n IH]; intros i; simpl; ut. apply IH. Qed.

Lemma shell_exit_untouched args : keeps (untouched proj) (shell_exit args).
Proof. unfold shell_exit, kill_processes. ut. apply kill_loop_untouched. Qed.

Lemma shell_status_untouched args : keeps (untouched proj) (shell_status args).
Proof. unfold shell_status, printf. ut. Qed.

Lemma background_check_loop_untouched o bg i n :
  keeps (untouched proj) (background_check_loop o bg i n).
Proof.
  revert i. induction n as [|n IH]; intros i; simpl; [ut|].
  destruct (bg !! i) as [p|]; [|ut].
  destruct (os_waitpid_nohang o i p) as [wpid st].
  apply (keeps_bind _ untouched_trans); [unfold printf; ut|intros _; apply IH].
Qed.

Lemma catchSIGTSTP_untouched signo : keeps (untouched proj) (catchSIGTSTP signo).
Proof. unfold catchSIGTSTP, write. ut. Qed.

Lemma shell_read_line_untouched o : keeps (untouched proj) (shell_read_line o).
Proof.
  unfold shell_read_line. apply (keeps_bind _ untouched_trans); [|ut].
  induction (os_sigtstp o) as [|n IH]; simpl; [ut|].
  apply (keeps_bind _ untouched_trans); [apply catchSIGTSTP_untouched|intros _; exact IH].
Qed.

Lemma split_loop_untouched (n : nat) :
  forall (rest tokens : list cstring) (bufsize : nat) (g : shell),
    (length rest <= n)%nat ->
    proj (snd (split_loop rest tokens bufsize g)) = proj g.
Proof.
  induction n as [|n IH]; intros rest tokens bufsize g Hlen.
  { destruct rest; simpl in *; [reflexivity|lia]. }
  destruct rest as [|token rest]; [reflexivity|].
  rewrite split_loop_cons. simpl in Hlen.
  destruct (streq token (lit ">")); [|destruct (streq token (lit "<"))].
  - destruct rest as [|file rest]; simpl.
    + rewrite proj_outputFile, proj_out. reflexivity.
    + rewrite IH by (simpl in Hlen; lia). rewrite proj_outputFile, proj_out. reflexivity.
  - destruct rest as [|file rest]; simpl.
    + rewrite proj_inputFile, proj_in. reflexivity.
    + rewrite IH by (simpl in Hlen; lia). rewrite proj_inputFile, proj_in. reflexivity.
  - apply IH. lia.
Qed.

Lemma shell_split_line_untouched line : keeps (untouched proj) (shell_split_line line).
Proof.
  intros g. unfold shell_split_line. rewrite bind_modify, bind_get.
  pose proof (split_loop_untouched _ (strtok_tokens line) [] TOK_BUFFSIZE
                (set_isBackground 0 g) (le_n _)) as H.
  destruct (split_loop (strtok_tokens line) [] TOK_BUFFSIZE (set_isBackground 0 g))
    as [[tokens bufsize] g1].
  cbn [snd] in H. rewrite proj_isBackground in H. rewrite bind_modify.
  unfold untouched. rewrite <- H.
  destruct (match last tokens with Some t => streq t (lit "&") | None => false end).
  - destruct (truthy (backgroundAllowed g1)); cbn [when].
    + rewrite bind_modify. apply proj_isBackground.
    + rewrite bind_ret. reflexivity.
  - destruct (length tokens <? bufsize)%nat; reflexivity.
Qed.

Lemma shell_loop_parse_untouched o : keeps (untouched proj) (shell_loop_parse o).
Proof.
  unfold shell_loop_parse, background_check, printf. ut.
  - apply background_check_loop_untouched.
  - apply shell_read_line_untouched.
  - apply shell_split_line_untouched.
Qed.

Lemma shell_launch_child_untouched o args :
  keeps (untouched proj) (shell_launch_child o args).
Proof. unfold shell_launch_child, sigaction, open_, dup2, perror. ut. Qed.

Lemma bgTracker_store_untouched pid : keeps (untouched proj) (bgTracker_store pid).
Proof. unfold bgTracker_store. ut. Qed.

Lemma wait_loop_untouched answers : keeps (untouched proj) (wait_loop answers).
Proof. induction answers as [|w answers IH]; simpl; ut; exact IH. Qed.

Lemma shell_launch_parent_untouched o pid :
  keeps (untouched proj) (shell_launch_parent o pid).
Proof.
  unfold shell_launch_parent, printf. ut.
  - apply bgTracker_store_untouched.
  - apply wait_loop_untouched.
Qed.

End Untouched.

(** The globals [shell_launch] leaves are those its branch leaves. *)
Lemma shell_launch_snd (o : os) (args : list cstring) (g : shell) :
  snd (shell_launch o args g)
  = snd ((if os_fork o =? 0 then shell_launch_child o args
          else if os_fork o <? 0 then perror "smallsh"
          else shell_launch_parent o (os_fork o)) g).
Proof.
  unfold shell_launch.
  set (c := if os_fork o =? 0 then _ else _).
  unfold bind at 1. destruct (c g) as [[[]| | | |] g']; reflexivity.
Qed.

(** ** Who writes [status] *)

Lemma truthy_false (z : Z) : truthy z = false -> z = 0.
Proof. unfold truthy. intros H. apply negb_false_iff, Z.eqb_eq in H. exact H. Qed.

Lemma shell_execute_builtin_untouched {T} (proj : shell -> T) o args i :
  (forall v g, proj (set_events v g) = proj g) ->
  keeps (untouched proj)
    (match builtin_func o !! i with
     | Some f => f args
     | None => undefined
     end).
Proof.
  intros Hev.
  destruct i as [|[|[|i]]];
    [change (keeps (untouched proj) (shell_cd o args))
    |change (keeps (untouched proj) (shell_exit args))
    |change (keeps (untouched proj) (shell_status args))
    |change (keeps (untouched proj) (@undefined Z))].
  - apply shell_cd_untouched, Hev.
  - apply shell_exit_untouched, Hev.
  - apply shell_status_untouched, Hev.
  - apply keeps_undefined, untouched_refl.
Qed.

(** X5: [status] is written by the foreground wait only.  Reading and
    splitting a line leaves it as it is, and so does [shell_execute] unless
    it launches a command, in the parent, in the foreground: a blank line, a
    comment, [cd] (failing or not), [exit], [status], a background launch, a
    failed [fork] and the child's own code keep its value. *)
Theorem status_written_by_foreground_wait_only
    (o : os) (args : list cstring) (g : shell) :
  status (snd (shell_loop_parse o g)) = status g /\
  (status (snd (shell_execute o args g)) = status g \/
   (dispatch args = Launch /\ 0 < os_fork o /\ isBackground g = 0)).
Proof.
  split.
  { apply (shell_loop_parse_untouched status); reflexivity. }
  unfold shell_execute. destruct (dispatch args) as [|i|] eqn:Ed.
  - left. reflexivity.
  - left. apply (shell_execute_builtin_untouched status). reflexivity.
  - rewrite shell_launch_snd.
    destruct (os_fork o =? 0) eqn:E0.
    { left. apply (shell_launch_child_untouched status); reflexivity. }
    destruct (os_fork o <? 0) eqn:E1; [left; reflexivity|].
    apply Z.eqb_neq in E0. apply Z.ltb_ge in E1.
    destruct (truthy (isBackground g)) eqn:Ebg.
    + left. unfold shell_launch_parent. rewrite bind_get, Ebg.
      apply (keeps_bind _ (untouched_trans status)).
      * intros g0. reflexivity.
      * intros _. apply (bgTracker_store_untouched status); reflexivity.
    + right. split; [reflexivity|]. split; [lia|]. apply truthy_false. exact Ebg.
Qed.

(** ** [main] *)

Lemma main_eval (script : list os) (g : shell) :
  main script g = (shell_loop script ;;; ret EXIT_SUCCESS) (main_setup g).
Proof.
  unfold main, sigaction, main_setup. rewrite !bind_modify, !bind_emit.
  cbn [events set_events set_SIGTSTP_handler set_SIGINT_handler].
  rewrite <- app_assoc. reflexivity.
Qed.

(** ** The registry over a session *)

Lemma registry_grows_refl g : registry_grows g g.
Proof. unfold registry_grows. repeat split; lia. Qed.

Lemma registry_grows_trans g1 g2 g3 :
  registry_grows g1 g2 -> registry_grows g2 g3 -> registry_grows g1 g3.
Proof.
  intros (L1 & N1 & T1) (L2 & N2 & T2). split; [congruence|]. split; [lia|].
  rewrite <- T1.
  assert (Hmin : Nat.min (Z.to_nat (numBGProcesses g1)) (Z.to_nat (numBGProcesses g2))
                 = Z.to_nat (numBGProcesses g1)) by lia.
  rewrite <- Hmin, <- !take_take, T2. reflexivity.
Qed.

Lemma untouched_registry_grows g g' : untouched registry g g' -> registry_grows g g'.
Proof.
  unfold untouched, registry. intros [= H1 H2]. unfold registry_grows.
  rewrite H1, H2. repeat split; lia.
Qed.

Lemma keeps_untouched_registry_grows {A} (c : M A) :
  keeps (untouched registry) c -> keeps registry_grows c.
Proof. intros H g. apply untouched_registry_grows, H. Qed.

Lemma bgTracker_store_grows pid : keeps registry_grows (bgTracker_store pid).
Proof.
  intros g. unfold bgTracker_store. rewrite bind_get.
  destruct ((0 <=? numBGProcesses g) && (numBGProcesses g <? Z.of_nat bgTracker_size));
    [|apply registry_grows_refl].
  rewrite bind_modify. unfold registry_grows. simpl.
  split; [apply length_insert|]. split; [lia|].
  apply take_insert_ge. lia.
Qed.

Lemma shell_launch_grows o args : keeps registry_grows (shell_launch o args).
Proof.
  intros g. rewrite shell_launch_snd.
  destruct (os_fork o =? 0).
  { apply untouched_registry_grows.
    apply (shell_launch_child_untouched registry); reflexivity. }
  destruct (os_fork o <? 0); [apply untouched_registry_grows; reflexivity|].
  unfold shell_launch_parent. rewrite bind_get.
  destruct (truthy (isBackground g)).
  - apply (keeps_bind _ registry_grows_trans).
    + intros g0. apply untouched_registry_grows. reflexivity.
    + intros _. apply bgTracker_store_grows.
  - apply untouched_registry_grows.
    apply (keeps_bind _ (untouched_trans registry)).
    + apply (wait_loop_untouched registry); reflexivity.
    + intros _ g0. rewrite bind_get.
      destruct (WIFSIGNALED (status g0)); reflexivity.
Qed.

Lemma shell_loop_body_grows o : keeps registry_grows (shell_loop_body o).
Proof.
  unfold shell_loop_body. apply (keeps_bind _ registry_grows_trans).
  - apply keeps_untouched_registry_grows.
    apply (shell_loop_parse_untouched registry); reflexivity.
  - intros args. unfold shell_execute. destruct (dispatch args) as [|i|].
    + apply keeps_ret, registry_grows_refl.
    + apply keeps_untouched_registry_grows.
      apply (shell_execute_builtin_untouched registry). reflexivity.
    + apply shell_launch_grows.
Qed.

Lemma shell_loop_grows script : keeps registry_grows (shell_loop script).
Proof.
  induction script as [|o script IH]; simpl.
  - apply keeps_blocked, registry_grows_refl.
  - apply (keeps_bind _ registry_grows_trans); [apply shell_loop_body_grows|].
    intros a. destruct (truthy a); [exact IH|apply keeps_ret, registry_grows_refl].
Qed.

(** X6: over any session, however it ends, the registry only grows: the
    array keeps its 250 entries, [numBGProcesses] never goes down, and an
    entry below the count is never removed or overwritten, also after its
    process has been reported as done. *)
Theorem registry_is_append_only (script : list os) (g : shell) :
  let g' := snd (shell_loop script g) in
  length (bgTracker g') = length (bgTracker g) /\
  numBGProcesses g <= numBGProcesses g' /\
  (forall (i : nat) (p : Z),
     Z.of_nat i < numBGProcesses g ->
     bgTracker g !! i = Some p -> bgTracker g' !! i = Some p) /\
  length (bgTracker (snd (main script initial_shell))) = 250%nat /\
  0 <= numBGProcesses (snd (main script initial_shell)).
Proof.
  intros g'. destruct (shell_loop_grows script g) as (HL & HN & HT).
  fold g' in HL, HN, HT.
  split; [exact HL|]. split; [exact HN|]. split.
  - intros i p Hi Hp.
    rewrite <- (lookup_take_lt (bgTracker g') (Z.to_nat (numBGProcesses g)) i) by lia.
    rewrite HT, lookup_take_lt by lia. exact Hp.
  - assert (Hm : snd (main script initial_shell)
                 = snd (shell_loop script (main_setup initial_shell))).
    { rewrite main_eval. unfold bind.
      destruct (shell_loop script (main_setup initial_shell)) as [[[]| | | |] gx];
        reflexivity. }
    rewrite Hm.
    match goal with |- context [shell_loop script ?g0] =>
      destruct (shell_loop_grows script g0) as (HL0 & HN0 & _) end.
    split; [rewrite HL0; reflexivity|].
    eapply Z.le_trans; [|exact HN0]. cbn. lia.
Qed.

(** ** The child *)

(** X7: the code after a [fork] that returned 0 never comes back to the
    loop: the child either becomes the program, which needs a first argument
    and a successful [execvp], or ends with [exit(1)], be it for a failed
    [open] or a failed [execvp]. *)
Theorem child_never_returns (o : os) (args : list cstring) (g : shell) :
  os_fork o = 0 ->
  fst (shell_launch o args g) = Exited 1 \/
  (exists file, head args = Some file /\ os_execvp_ok o = true /\
                fst (shell_launch o args g) = Execed file args).
Proof.
  intros Hfork. unfold shell_launch, shell_launch_child. rewrite Hfork.
  change (0 =? 0) with true. change (-5 =? -5) with true.
  destruct g. destruct args as [|file args]; [|destruct (os_execvp_ok o) eqn:Eok].
  - repeat (mrun; match goal with
                  | |- context [if ?b then _ else _] => destruct b
                  end);
      left; reflexivity.
  - repeat (mrun; match goal with
                  | |- context [if ?b then _ else _] => destruct b
                  end);
      mrun; try (left; reflexivity);
      right; exists file; repeat split; reflexivity.
  - repeat (mrun; match goal with
                  | |- context [if ?b then _ else _] => destruct b
                  end);
      left; reflexivity.
Qed.

(** X8: in the child the disposition of SIGTSTP is always set to ignore,
    whatever happens next; that of SIGINT is set to the default action for a
    foreground command and left as inherited for a background one. *)
Theorem child_dispositions (o : os) (args : list cstring) (g : shell) :
  os_fork o = 0 ->
  dispositions (snd (shell_launch o args g))
  = (if truthy (isBackground g) then SIGINT_handler g else SIG_DFL, SIG_IGN) /\
  exists rest,
    events (snd (shell_launch o args g))
    = events g ++ Sigaction SIGTSTP_ SIG_IGN ::
      (if truthy (isBackground g) then [] else [Sigaction SIGINT SIG_DFL]) ++ rest.
Proof.
  intros Hfork. unfold shell_launch, shell_launch_child. rewrite Hfork.
  change (0 =? 0) with true. change (-5 =? -5) with true.
  destruct g. cbn [isBackground SIGINT_handler events].
  destruct (truthy isBackground0) eqn:Ebg;
    destruct args as [|file args]; [|destruct (os_execvp_ok o)| |destruct (os_execvp_ok o)];
    repeat (mrun; rewrite ?Ebg;
            match goal with
            | |- context [if ?b then _ else _] => destruct b
            end);
    mrun; (split; [reflexivity|]);
    rewrite <- ?app_assoc; eexists; cbn [app]; reflexivity.
Qed.

Lemma child_dispositions_witness :
  dispositions
    (snd (shell_launch (os_command "ls" 0) [lit "ls"] (main_setup initial_shell)))
  = (SIG_DFL, SIG_IGN).
Proof.
  pose proof (child_dispositions (os_command "ls" 0) [lit "ls"]
                (main_setup initial_shell) eq_refl) as [H _].
  rewrite H. reflexivity.
Defined.

(** ** The dispositions of the shell *)

Lemma shell_loop_body_keeps_dispositions (o : os) :
  os_fork o <> 0 -> keeps (untouched dispositions) (shell_loop_body o).
Proof.
  intros Hfork. unfold shell_loop_body.
  apply (keeps_bind _ (untouched_trans dispositions)).
  - apply (shell_loop_parse_untouched dispositions); reflexivity.
  - intros args. unfold shell_execute. destruct (dispatch args) as [|i|].
    + apply keeps_ret, untouched_refl.
    + apply (shell_execute_builtin_untouched dispositions). reflexivity.
    + intros g. unfold untouched. rewrite shell_launch_snd.
      apply Z.eqb_neq in Hfork. rewrite Hfork.
      destruct (os_fork o <? 0); [reflexivity|].
      apply (shell_launch_parent_untouched dispositions); reflexivity.
Qed.

Lemma shell_loop_keeps_dispositions (script : list os) :
  Forall (fun o => os_fork o <> 0) script ->
  keeps (untouched dispositions) (shell_loop script).
Proof.
  induction 1 as [|o script Ho _ IH]; simpl.
  - apply keeps_blocked, untouched_refl.
  - apply (keeps_bind _ (untouched_trans dispositions)).
    + apply shell_loop_body_keeps_dispositions, Ho.
    + intros a. destruct (truthy a); [exact IH|apply keeps_ret, untouched_refl].
Qed.

(** X9: in the shell itself, that is as long as every [fork] returns the
    parent's side, the dispositions [main] installs stay for the whole
    session: SIGINT is ignored and SIGTSTP runs [catchSIGTSTP], whatever the
    commands and however the session ends. *)
Theorem shell_dispositions_invariant (script : list os) :
  Forall (fun o => os_fork o <> 0) script ->
  dispositions (main_setup initial_shell) = (SIG_IGN, Handler_catchSIGTSTP) /\
  dispositions (snd (main script initial_shell)) = (SIG_IGN, Handler_catchSIGTSTP).
Proof.
  intros H. split; [reflexivity|]. rewrite main_eval.
  assert (Hsnd : snd ((shell_loop script ;;; ret EXIT_SUCCESS) (main_setup initial_shell))
                 = snd (shell_loop script (main_setup initial_shell))).
  { unfold bind.
    destruct (shell_loop script (main_setup initial_shell)) as [[[]| | | |] gx];
      reflexivity. }
  rewrite Hsnd.
  rewrite (shell_loop_keeps_dispositions script H (main_setup initial_shell)).
  reflexivity.
Qed.

Lemma shell_dispositions_invariant_witness :
  dispositions
    (snd (main [os_command "ls" 4321; os_sleep_bg 4322; os_segfault] initial_shell))
  = (SIG_IGN, Handler_catchSIGTSTP).
Proof.
  apply shell_dispositions_invariant.
  repeat constructor; simpl; lia.
Defined.

(** ** Leaving the shell *)



(** ** The parent after [fork] *)

(** X11: when [fork] fails, [shell_launch] reports it with [perror] and
    returns 1; the command is given up: nothing is waited for, nothing is
    added to the registry and [status] keeps its value. *)
Theorem fork_failure_abandons_command (o : os) (args : list cstring) (g : shell) :
  os_fork o < 0 ->
  shell_launch o args g
  = (Ret 1, set_events (events g ++ [Perror (lit "smallsh")]) g).
Proof.
  intros H. unfold shell_launch.
  assert (H0 : (os_fork o =? 0) = false) by (apply Z.eqb_neq; lia).
  assert (H1 : (os_fork o <? 0) = true) by (apply Z.ltb_lt; lia).
  rewrite H0, H1. reflexivity.
Qed.

Lemma fork_failure_abandons_command_witness :
  shell_launch (os_command "ls" (-1)) [lit "ls"] initial_shell
  = (Ret 1, set_events [Perror (lit "smallsh")] initial_shell).
Proof.
  assert (Hfork : os_fork (os_command "ls" (-1)) < 0) by (vm_compute; reflexivity).
  rewrite (fork_failure_abandons_command (os_command "ls" (-1)) [lit "ls"]
             initial_shell Hfork).
  reflexivity.
Defined.

(** X12: for a background command with room in the registry the parent
    prints [background pid is <pid>], stores the child at the index
    [numBGProcesses], adds one to the count and returns 1 without asking
    [waitpid] anything; the entry is then there to be found, and an [exit]
    run next sends it SIGKILL after the older entries. *)
Theorem background_launch_registers_child
    (o : os) (args args' : list cstring) (g : shell) :
  0 < os_fork o ->
  truthy (isBackground g) = true ->
  0 <= numBGProcesses g < Z.of_nat bgTracker_size ->
  length (bgTracker g) = bgTracker_size ->
  let n := Z.to_nat (numBGProcesses g) in
  let g' := set_numBGProcesses (numBGProcesses g + 1)
              (set_bgTracker (<[n := os_fork o]> (bgTracker g))
                 (set_events
                    (events g ++
                     [Printf (lit "background pid is " ++ fmt_d (os_fork o) ++ [NL])])
                    g)) in
  shell_launch o args g = (Ret 1, g') /\
  bgTracker g' !! n = Some (os_fork o) /\
  (forall i, i <> n -> bgTracker g' !! i = bgTracker g !! i) /\
  shell_exit args' g'
  = (Ret 0,
     set_events (events g' ++ kill_events (bgTracker g) n ++ [Kill (os_fork o) SIGKILL])
       g').
Proof.
  intros Hfork Hbg Hn Hlen n g'. unfold bgTracker_size in *.
  assert (H0 : (os_fork o =? 0) = false) by (apply Z.eqb_neq; lia).
  assert (H1 : (os_fork o <? 0) = false) by (apply Z.ltb_ge; lia).
  split; [|split; [|split]].
  - unfold shell_launch, shell_launch_parent. rewrite H0, H1.
    rewrite (bind_Ret _ _ g tt g'); [reflexivity|].
    rewrite bind_get, Hbg, bind_printf.
    rewrite bgTracker_store_in_bounds by (cbn; unfold bgTracker_size; lia).
    reflexivity.
  - cbn. apply list_lookup_insert_eq. lia.
  - intros i Hi. cbn. apply list_lookup_insert_ne. congruence.
  - unfold shell_exit. rewrite bind_get.
    assert (Hk : (Z.to_nat (numBGProcesses g') <= length (bgTracker g'))%nat).
    { cbn. rewrite length_insert. lia. }
    rewrite (bind_Ret _ _ _ _ _ (kill_processes_eval _ _ g' Hk)).
    cbn [ret]. f_equal. f_equal. f_equal.
    unfold kill_events.
    change (numBGProcesses g') with (numBGProcesses g + 1).
    change (bgTracker g') with (<[n := os_fork o]> (bgTracker g)).
    replace (Z.to_nat (numBGProcesses g + 1)) with (S n) by lia.
    rewrite (take_S_r _ n (os_fork o)) by (apply list_lookup_insert_eq; lia).
    rewrite take_insert_ge by lia. rewrite map_app. reflexivity.
Qed.

Lemma background_launch_registers_child_witness :
  let g := set_isBackground 1 initial_shell in
  fst (shell_launch (os_sleep_bg 1000) [lit "sleep"; lit "100"] g) = Ret 1 /\
  bgTracker (snd (shell_launch (os_sleep_bg 1000) [lit "sleep"; lit "100"] g)) !! 0%nat
  = Some 1000.
Proof.
  intros g.
  assert (Hfork : 0 < os_fork (os_sleep_bg 1000)) by (vm_compute; reflexivity).
  assert (Hn : 0 <= numBGProcesses g < Z.of_nat bgTracker_size)
    by (split; vm_compute; [discriminate|reflexivity]).
  pose proof (background_launch_registers_child (os_sleep_bg 1000)
                [lit "sleep"; lit "100"] [] g Hfork eq_refl Hn eq_refl) as (H1 & H2 & _).
  rewrite H1. split; [reflexivity|exact H2].
Defined.



Lemma child_never_returns_witness :
  fst (shell_launch (os_command "ls" 0) [lit "ls"] initial_shell)
  = Execed (lit "ls") [lit "ls"].
Proof.
  destruct (child_never_returns (os_command "ls" 0) [lit "ls"] initial_shell eq_refl)
    as [H | (file & Hf & _ & H)].
  - vm_compute in H. discriminate H.
  - injection Hf as <-. exact H.
Defined.

(** ** Statuses after a foreground command *)

Lemma exit_status_decoded (c : Z) :
  0 <= c < 256 ->
  WIFEXITED (W_EXITCODE c 0) = true /\ WEXITSTATUS (W_EXITCODE c 0) = c.
Proof.
  intros H.
  assert (Hall : forallb (fun n => WIFEXITED (W_EXITCODE (Z.of_nat n) 0) &&
                                   (WEXITSTATUS (W_EXITCODE (Z.of_nat n) 0) =? Z.of_nat n))
                   (seq 0 256) = true) by (vm_compute; reflexivity).
  rewrite forallb_forall in Hall.
  specialize (Hall (Z.to_nat c)). rewrite Z2Nat.id in Hall by lia.
  apply andb_prop in Hall as [H1 H2]; [|apply in_seq; lia].
  split; [exact H1|apply Z.eqb_eq; exact H2].
Qed.

Lemma signal_status_decoded (s : Z) :
  1 <= s < 127 ->
  WIFEXITED s = false /\ WIFSIGNALED s = true /\ WTERMSIG s = s.
Proof.
  intros H.
  assert (Hall : forallb (fun n => negb (WIFEXITED (Z.of_nat n)) &&
                                   WIFSIGNALED (Z.of_nat n) &&
                                   (WTERMSIG (Z.of_nat n) =? Z.of_nat n))
                   (seq 1 126) = true) by (vm_compute; reflexivity).
  rewrite forallb_forall in Hall.
  specialize (Hall (Z.to_nat s)). rewrite Z2Nat.id in Hall by lia.
  apply andb_prop in Hall as [H12 H3]; [|apply in_seq; lia].
  apply andb_prop in H12 as [H1 H2].
  repeat split; [apply negb_true_iff; exact H1|exact H2|apply Z.eqb_eq; exact H3].
Qed.

Lemma foreground_launch_first_status
    (o : os) (args : list cstring) (g : shell) (s : Z) (rest : list wait_result) :
  0 < os_fork o ->
  isBackground g = 0 ->
  os_waitpid o = WaitStatus s :: rest ->
  ends_wait s = true ->
  shell_launch o args g
  = (Ret 1,
     if WIFSIGNALED s
     then set_events (events g ++
            [Printf (lit "terminated by signal " ++ fmt_d s ++ [NL])]) (set_status s g)
     else set_status s g).
Proof.
  intros Hfork Hfg Hos Hends.
  assert (H0 : (os_fork o =? 0) = false) by (apply Z.eqb_neq; lia).
  assert (H1 : (os_fork o <? 0) = false) by (apply Z.ltb_ge; lia).
  assert (Hwait : wait_loop (os_waitpid o) g = (Ret tt, set_status s g)).
  { rewrite Hos. cbn [wait_loop]. rewrite bind_modify, bind_get.
    cbn [status set_status]. unfold ends_wait in Hends.
    destruct (WIFEXITED s); [reflexivity|]. cbn [orb] in Hends. rewrite Hends.
    reflexivity. }
  unfold shell_launch, shell_launch_parent. rewrite H0, H1.
  rewrite (bind_Ret _ _ g tt
             (if WIFSIGNALED s
              then set_events (events g ++
                     [Printf (lit "terminated by signal " ++ fmt_d s ++ [NL])])
                     (set_status s g)
              else set_status s g)).
  - reflexivity.
  - rewrite bind_get, Hfg. cbn [truthy Z.eqb negb].
    rewrite (bind_Ret _ _ _ _ _ Hwait), bind_get. cbn [status set_status].
    destruct (WIFSIGNALED s); reflexivity.
Qed.

(** X14: a foreground command whose child exits with the code [c], between
    0 and 255, leaves the encoded status in [status] and prints nothing; the
    built-in [status] run next prints [exit value c]. *)
Theorem status_reports_exit_code
    (o : os) (args args' : list cstring) (g : shell) (c : Z)
    (rest : list wait_result) :
  0 <= c < 256 ->
  0 < os_fork o ->
  isBackground g = 0 ->
  os_waitpid o = WaitStatus (W_EXITCODE c 0) :: rest ->
  let g1 := set_status (W_EXITCODE c 0) g in
  shell_launch o args g = (Ret 1, g1) /\
  shell_status args' g1
  = (Ret 1, set_events (events g ++ [Printf (lit "exit value " ++ fmt_d c ++ [NL])]) g1).
Proof.
  intros Hc Hfork Hfg Hos g1.
  destruct (exit_status_decoded c Hc) as [He Hv].
  assert (Hs : WIFSIGNALED (W_EXITCODE c 0) = false).
  { unfold WIFEXITED in He. apply Z.eqb_eq in He.
    unfold WIFSIGNALED, WTERMSIG in *. rewrite He. reflexivity. }
  split.
  - rewrite (foreground_launch_first_status o args g _ rest Hfork Hfg Hos)
      by (unfold ends_wait; rewrite He; reflexivity).
    rewrite Hs. reflexivity.
  - unfold shell_status. rewrite bind_get. subst g1. cbn [status set_status].
    rewrite He, Hv. reflexivity.
Qed.

Lemma status_reports_exit_code_witness :
  shell_launch (os_command "ls" 4321) [lit "ls"] initial_shell
  = (Ret 1, set_status (W_EXITCODE 0 0) initial_shell).
Proof.
  assert (Hc : 0 <= 0 < 256) by lia.
  assert (Hfork : 0 < os_fork (os_command "ls" 4321)) by (vm_compute; reflexivity).
  exact (proj1 (status_reports_exit_code (os_command "ls" 4321) [lit "ls"] []
                  initial_shell 0 [] Hc Hfork eq_refl eq_refl)).
Defined.

(** X15: a foreground command whose child is ended by the signal [s]
    without a core file is reported at once with [terminated by signal s],
    and the built-in [status] run next prints the same line once more. *)
Theorem signal_reports_agree
    (o : os) (args args' : list cstring) (g : shell) (s : Z)
    (rest : list wait_result) :
  1 <= s < 127 ->
  0 < os_fork o ->
  isBackground g = 0 ->
  os_waitpid o = WaitStatus (W_EXITCODE 0 s) :: rest ->
  let msg := Printf (lit "terminated by signal " ++ fmt_d s ++ [NL]) in
  let g1 := set_events (events g ++ [msg]) (set_status (W_EXITCODE 0 s) g) in
  shell_launch o args g = (Ret 1, g1) /\
  shell_status args' g1 = (Ret 1, set_events (events g1 ++ [msg]) g1).
Proof.
  intros Hs Hfork Hfg Hos msg g1. subst msg g1.
  assert (Hst : W_EXITCODE 0 s = s).
  { unfold W_EXITCODE. rewrite Z.shiftl_0_l. apply Z.lor_0_l. }
  rewrite Hst in *.
  destruct (signal_status_decoded s Hs) as (He & Hsig & Ht).
  split.
  - rewrite (foreground_launch_first_status o args g _ rest Hfork Hfg Hos)
      by (unfold ends_wait; rewrite He, Hsig; reflexivity).
    rewrite Hsig. reflexivity.
  - unfold shell_status. rewrite bind_get. cbn [status set_status set_events].
    rewrite He, Hsig, Ht. reflexivity.
Qed.

(** ** SIGTSTP *)

(** X16: [n] deliveries of SIGTSTP in a row all return; they leave the mode
    as it was when [n] is even and flipped when [n] is odd, and each of them
    writes its message and flushes. *)
Theorem sigtstp_parity (n : nat) (g : shell) :
  mode_is_boolean g ->
  fst (deliver_SIGTSTP n g) = Ret tt /\
  backgroundAllowed (snd (deliver_SIGTSTP n g))
  = (if Nat.even n then backgroundAllowed g else 1 - backgroundAllowed g) /\
  length (events (snd (deliver_SIGTSTP n g))) = (length (events g) + 2 * n)%nat.
Proof.
  revert g. induction n as [|n IH]; intros g H.
  { simpl. repeat split. lia. }
  cbn [deliver_SIGTSTP]. rewrite Nat.even_succ, <- Nat.negb_even.
  destruct H as [H|H].
  - rewrite (bind_Ret _ _ _ _ _ (catchSIGTSTP_allowed_off SIGTSTP g H)).
    destruct (IH (set_backgroundAllowed 1
                    (set_events (events g ++ [Write 1 message_exiting; Fflush]) g))
                (or_intror eq_refl)) as (A & B & C).
    rewrite A, B, C. cbn [backgroundAllowed set_backgroundAllowed events set_events].
    rewrite length_app, H. cbn [length].
    destruct (Nat.even n); repeat split; simpl; lia.
  - rewrite (bind_Ret _ _ _ _ _ (catchSIGTSTP_allowed_on SIGTSTP g H)).
    destruct (IH (set_backgroundAllowed 0
                    (set_events (events g ++ [Write 1 message_entering; Fflush]) g))
                (or_introl eq_refl)) as (A & B & C).
    rewrite A, B, C. cbn [backgroundAllowed set_backgroundAllowed events set_events].
    rewrite length_app, H. cbn [length].
    destruct (Nat.even n); repeat split; simpl; lia.
Qed.

(** X17: after [shell_split_line], [isBackground] is 1 exactly when the
    last stored argument is [&] and [backgroundAllowed] is not 0, whatever its
    value before; the mode itself is not touched, and a closing [&] is always
    taken off the argument vector, also when it is ignored. *)
Theorem background_flag_after_split (line : cstring) (g : shell) :
  let toks := stored_tokens (strtok_tokens line) in
  let g' := snd (shell_split_line line g) in
  backgroundAllowed g' = backgroundAllowed g /\
  isBackground g'
  = (if ends_with_ampersand toks && truthy (backgroundAllowed g) then 1 else 0) /\
  (ends_with_ampersand toks = true ->
   fst (shell_split_line line g) = Ret (removelast toks)).
Proof.
  intros toks g'. subst toks g'. unfold shell_split_line.
  rewrite bind_modify, bind_get.
  pose proof (split_loop_stored _ (strtok_tokens line) [] TOK_BUFFSIZE
                (set_isBackground 0 g) (le_n _)) as Ht.
  pose proof (split_loop_untouched backgroundAllowed
                (fun _ _ => eq_refl) (fun _ _ => eq_refl)
                (fun _ _ => eq_refl) (fun _ _ => eq_refl)
                _ (strtok_tokens line) [] TOK_BUFFSIZE
                (set_isBackground 0 g) (le_n _)) as Hb.
  pose proof (split_loop_untouched isBackground
                (fun _ _ => eq_refl) (fun _ _ => eq_refl)
                (fun _ _ => eq_refl) (fun _ _ => eq_refl)
                _ (strtok_tokens line) [] TOK_BUFFSIZE
                (set_isBackground 0 g) (le_n _)) as Hi.
  destruct (split_loop (strtok_tokens line) [] TOK_BUFFSIZE (set_isBackground 0 g))
    as [[tokens bufsize] g1].
  cbn [fst snd app] in Ht, Hb, Hi. subst tokens.
  cbn [backgroundAllowed isBackground set_isBackground] in Hb, Hi.
  rewrite bind_modify. unfold ends_with_ampersand.
  destruct (match last (stored_tokens (strtok_tokens line)) with
            | Some t => streq t (lit "&")
            | None => false
            end).
  - rewrite Hb. destruct (truthy (backgroundAllowed g)); cbn [when andb].
    + rewrite bind_modify. cbn. rewrite Hb. repeat split.
    + rewrite bind_ret. cbn. rewrite Hb, Hi. repeat split.
  - cbn [andb].
    destruct (length (stored_tokens (strtok_tokens line)) <? bufsize)%nat;
      cbn; rewrite Hb, Hi; repeat split; discriminate.
Qed.

Lemma signal_reports_agree_witness :
  let o := {| os_sigtstp := 0; os_getline := lit "kill -9 $$" ++ [NL]; os_getline_cap := 120;
              os_getpid := 1234; os_getenv_HOME := None; os_chdir := fun _ => 0;
              os_fork := 4321; os_waitpid := [WaitStatus (W_EXITCODE 0 SIGKILL)];
              os_waitpid_nohang := fun _ _ => (0, 0);
              os_open := fun _ _ => 3; os_execvp_ok := true |} in
  events (snd (shell_launch o [lit "kill"] initial_shell))
  = [Printf (lit "terminated by signal 9" ++ [NL])].
Proof.
  intros o.
  assert (Hs : 1 <= SIGKILL < 127) by (unfold SIGKILL; lia).
  assert (Hfork : 0 < os_fork o) by (vm_compute; reflexivity).
  rewrite (proj1 (signal_reports_agree o [lit "kill"] [] initial_shell SIGKILL []
                    Hs Hfork eq_refl eq_refl)).
  reflexivity.
Defined.

Lemma sigtstp_parity_witness :
  backgroundAllowed (snd (deliver_SIGTSTP 3 initial_shell)) = 0 /\
  backgroundAllowed (snd (deliver_SIGTSTP 4 initial_shell)) = 1.
Proof.
  split.
  - rewrite (proj1 (proj2 (sigtstp_parity 3 initial_shell (or_intror eq_refl)))).
    reflexivity.
  - rewrite (proj1 (proj2 (sigtstp_parity 4 initial_shell (or_intror eq_refl)))).
    reflexivity.
Defined.

(** ** Lines without a command *)

Lemma catchSIGTSTP_returns (signo : Z) (g : shell) :
  fst (catchSIGTSTP signo g) = Ret tt.
Proof.
  unfold catchSIGTSTP. rewrite bind_get.
  destruct (backgroundAllowed g =? 1); [reflexivity|].
  destruct (backgroundAllowed g =? 0); reflexivity.
Qed.

Lemma deliver_SIGTSTP_returns (n : nat) :
  forall g, fst (deliver_SIGTSTP n g) = Ret tt.
Proof.
  induction n as [|n IH]; intros g; [reflexivity|].
  cbn [deliver_SIGTSTP]. pose proof (catchSIGTSTP_returns SIGTSTP g) as H.
  destruct (catchSIGTSTP SIGTSTP g) as [r g1] eqn:E. cbn [fst] in H. subst r.
  rewrite (bind_Ret _ _ _ _ _ E). apply IH.
Qed.

Lemma delims_no_dollar (s : cstring) :
  forallb is_delim s = true -> "$"%char ∉ s.
Proof.
  induction s as [|c s IH]; intros H; [apply not_elem_of_nil|].
  cbn [forallb] in H. apply andb_prop in H as [Hc Hs].
  apply not_elem_of_cons. split; [|exact (IH Hs)].
  intros <-. vm_compute in Hc. discriminate Hc.
Qed.

Lemma expanded_line_without_dollar (o : os) :
  "$"%char ∉ os_getline o -> expanded_line o = Ret (os_getline o).
Proof.
  intros H. unfold expanded_line.
  assert (Hs : strstr (drop 0 (os_getline o)) (lit "$$") = None).
  { rewrite drop_0. pose proof (strstr_skip_prefix (os_getline o) [] H) as E.
    rewrite app_nil_r in E. rewrite E. reflexivity. }
  destruct (length (os_getline o)); cbn [expand_loop]; rewrite Hs; reflexivity.
Qed.

Lemma shell_read_line_without_dollar (o : os) (g : shell) :
  "$"%char ∉ os_getline o ->
  exists g1, shell_read_line o g = (Ret (os_getline o), g1).
Proof.
  intros H. unfold shell_read_line. rewrite (expanded_line_without_dollar o H).
  pose proof (deliver_SIGTSTP_returns (os_sigtstp o) g) as Hd.
  destruct (deliver_SIGTSTP (os_sigtstp o) g) as [r g1] eqn:E.
  cbn [fst] in Hd. subst r. exists g1.
  rewrite (bind_Ret _ _ _ _ _ E). reflexivity.
Qed.

(** X18: a line made of blanks only gives an empty argument vector, and the
    iteration stops there: [shell_execute] does nothing more and returns 1,
    so the loop goes on. *)
Theorem blank_line_is_skipped (o : os) (g : shell) :
  forallb is_delim (os_getline o) = true ->
  (Z.to_nat (numBGProcesses g) <= length (bgTracker g))%nat ->
  fst (shell_loop_parse o g) = Ret [] /\
  shell_loop_body o g = (Ret 1, snd (shell_loop_parse o g)).
Proof.
  intros Hblank Hn.
  assert (Hparse : fst (shell_loop_parse o g) = Ret []).
  { unfold shell_loop_parse. rewrite !bind_modify, bind_get.
    cbn [numBGProcesses bgTracker set_in set_out]. unfold background_check.
    rewrite (bind_Ret _ _ _ _ _
               (background_check_loop_eval o (bgTracker g)
                  (Z.to_nat (numBGProcesses g)) 0 _ Hn)).
    rewrite bind_printf.
    match goal with
    | |- fst (bind _ _ ?g0) = _ =>
        destruct (shell_read_line_without_dollar o g0 (delims_no_dollar _ Hblank))
          as [g1 Hr]
    end.
    rewrite (bind_Ret _ _ _ _ _ Hr).
    unfold shell_split_line. rewrite bind_modify, bind_get.
    rewrite (strtok_tokens_delims _ Hblank). reflexivity. }
  split; [exact Hparse|].
  unfold shell_loop_body.
  destruct (shell_loop_parse o g) as [r g1] eqn:E. cbn [fst snd] in *. subst r.
  rewrite (bind_Ret _ _ _ _ _ E). reflexivity.
Qed.

Lemma blank_line_is_skipped_witness :
  shell_loop_body (os_command "   " 4321) initial_shell
  = (Ret 1, snd (shell_loop_parse (os_command "   " 4321) initial_shell)).
Proof.
  assert (Hn : (Z.to_nat (numBGProcesses initial_shell)
                <= length (bgTracker initial_shell))%nat) by (vm_compute; lia).
  exact (proj2 (blank_line_is_skipped (os_command "   " 4321) initial_shell eq_refl Hn)).
Defined.


(** ** The tokens of a line *)

Lemma skip_delims_head (s r : cstring) (c : ascii) :
  skip_delims s = c :: r -> is_delim c = false.
Proof.
  induction s as [|a s IH]; simpl; [discriminate|].
  destruct (is_delim a) eqn:E; [exact IH|]. intros [= <- _]. exact E.
Qed.

Lemma scan_token_delimiter_free (s : cstring) :
  delimiter_free (fst (scan_token s)) = true.
Proof.
  induction s as [|c s IH]; simpl; [reflexivity|].
  destruct (is_delim c) eqn:E; [reflexivity|].
  destruct (scan_token s) as [t r]. simpl in *. rewrite E, IH. reflexivity.
Qed.

Lemma strtok_wellformed (s t s' : cstring) :
  strtok s = Some (t, s') -> t <> [] /\ delimiter_free t = true.
Proof.
  unfold strtok. destruct (skip_delims s) as [|c r] eqn:E; [discriminate|].
  pose proof (skip_delims_head _ _ _ E) as Hc.
  pose proof (scan_token_delimiter_free (c :: r)) as Hd.
  assert (Hn : fst (scan_token (c :: r)) <> []).
  { simpl. rewrite Hc. destruct (scan_token r). discriminate. }
  intros H. assert (H' : scan_token (c :: r) = (t, s')) by congruence.
  rewrite H' in Hd, Hn. split; [exact Hn|exact Hd].
Qed.

(** X19: every token [strtok] returns is non-empty and holds no delimiter. *)
Theorem tokens_are_words (line : cstring) :
  Forall (fun t => t <> [] /\ delimiter_free t = true) (strtok_tokens line).
Proof.
  induction line as [line IH] using (induction_ltof1 _ (@length ascii)).
  unfold ltof in IH. rewrite strtok_tokens_unfold.
  destruct (strtok line) as [[t s']|] eqn:E; [|constructor].
  constructor; [exact (strtok_wellformed _ _ _ E)|].
  apply IH. exact (strtok_shorter _ _ _ E).
Qed.

Lemma scan_token_word (w : cstring) :
  delimiter_free w = true -> scan_token w = (w, []).
Proof.
  induction w as [|c w IH]; simpl; [reflexivity|].
  intros H. apply andb_prop in H as [Hc Hw]. apply negb_true_iff in Hc.
  rewrite Hc, (IH Hw). reflexivity.
Qed.

Lemma strtok_tokens_word (w : cstring) :
  w <> [] -> delimiter_free w = true -> strtok_tokens w = [w].
Proof.
  intros Hne Hw. rewrite strtok_tokens_unfold. unfold strtok.
  destruct w as [|c w]; [congruence|].
  pose proof Hw as Hw'. simpl in Hw'. apply andb_prop in Hw' as [Hc _].
  apply negb_true_iff in Hc. cbn [skip_delims]. rewrite Hc.
  rewrite (scan_token_word _ Hw). reflexivity.
Qed.

Lemma skip_delims_lead (lead s : cstring) :
  forallb is_delim lead = true -> skip_delims (lead ++ s) = skip_delims s.
Proof.
  induction lead as [|c lead IH]; simpl; [reflexivity|].
  intros H. apply andb_prop in H as [Hc Hl]. rewrite Hc. exact (IH Hl).
Qed.

Lemma strtok_tokens_lead (lead s : cstring) :
  forallb is_delim lead = true -> strtok_tokens (lead ++ s) = strtok_tokens s.
Proof.
  intros H. rewrite (strtok_tokens_unfold (lead ++ s)), (strtok_tokens_unfold s).
  unfold strtok. rewrite (skip_delims_lead _ _ H). reflexivity.
Qed.

(** X20: splitting gives back the words of a line: for non-empty words
    without delimiters, each followed by a non-empty run of delimiters, and
    after any run of leading delimiters, the tokens are the words in order. *)
Theorem tokens_round_trip (lead : cstring) (words : list (cstring * cstring)) :
  forallb is_delim lead = true ->
  Forall (fun p => (fst p <> [] /\ delimiter_free (fst p) = true) /\
                   (snd p <> [] /\ forallb is_delim (snd p) = true)) words ->
  strtok_tokens (lead ++ concat (map (fun p => fst p ++ snd p) words))
  = map fst words.
Proof.
  intros Hlead Hwords. rewrite (strtok_tokens_lead _ _ Hlead). clear lead Hlead.
  induction Hwords as [|[w sep] words [[Hne Hw] [Hsne Hsep]] _ IH]; [reflexivity|].
  cbn [map concat fst snd] in *.
  destruct sep as [|d sep]; [congruence|].
  cbn [forallb] in Hsep. apply andb_prop in Hsep as [Hd Hsep].
  rewrite <- !app_assoc. cbn [app].
  rewrite (strtok_tokens_cut d _ Hd _ w (le_n _)).
  rewrite (strtok_tokens_word w Hne Hw), (strtok_tokens_lead _ _ Hsep), IH.
  reflexivity.
Qed.

Lemma tokens_round_trip_witness :
  strtok_tokens (lit "  ls   -la" ++ [ascii_of_nat 9] ++ lit "/tmp" ++ [NL])
  = [lit "ls"; lit "-la"; lit "/tmp"].
Proof.
  apply (tokens_round_trip (lit "  ")
           [(lit "ls", lit "   "); (lit "-la", [ascii_of_nat 9]); (lit "/tmp", [NL])]).
  - reflexivity.
  - repeat constructor; discriminate.
Defined.

(** ** The size of the argument vector *)

Lemma grow_ge (bufsize position : nat) : (bufsize <= grow bufsize position)%nat.
Proof. unfold grow. destruct (bufsize <=? position)%nat; lia. Qed.

Lemma split_loop_bufsize_ge (n : nat) :
  forall (rest tokens : list cstring) (bufsize : nat) (g : shell),
    (length rest <= n)%nat ->
    (bufsize <= snd (fst (split_loop rest tokens bufsize g)))%nat.
Proof.
  induction n as [|n IH]; intros rest tokens bufsize g Hlen.
  { destruct rest; simpl in *; lia. }
  destruct rest as [|token rest]; [simpl; lia|].
  rewrite split_loop_cons. simpl in Hlen.
  pose proof (grow_ge bufsize (length tokens)) as Hg.
  destruct (streq token (lit ">")); [|destruct (streq token (lit "<"))].
  - destruct rest as [|file rest]; [exact Hg|].
    etransitivity; [exact Hg|]. apply IH. simpl in Hlen. lia.
  - destruct rest as [|file rest]; [exact Hg|].
    etransitivity; [exact Hg|]. apply IH. simpl in Hlen. lia.
  - etransitivity; [exact Hg|]. apply IH. lia.
Qed.

(** X21: with fewer than 64 stored arguments the array of 64 pointers is
    never outgrown: [shell_split_line] returns the stored arguments, less a
    closing [&]. *)
Theorem short_lines_fit_the_vector (line : cstring) (g : shell) :
  let toks := stored_tokens (strtok_tokens line) in
  (length toks < TOK_BUFFSIZE)%nat ->
  fst (shell_split_line line g)
  = Ret (if ends_with_ampersand toks then removelast toks else toks).
Proof.
  intros toks Hlen. subst toks. unfold shell_split_line.
  rewrite bind_modify, bind_get.
  pose proof (split_loop_stored _ (strtok_tokens line) [] TOK_BUFFSIZE
                (set_isBackground 0 g) (le_n _)) as Ht.
  pose proof (split_loop_bufsize_ge _ (strtok_tokens line) [] TOK_BUFFSIZE
                (set_isBackground 0 g) (le_n _)) as Hb.
  destruct (split_loop (strtok_tokens line) [] TOK_BUFFSIZE (set_isBackground 0 g))
    as [[tokens bufsize] g1].
  cbn [fst snd app] in Ht, Hb. subst tokens.
  rewrite bind_modify. unfold ends_with_ampersand.
  destruct (match last (stored_tokens (strtok_tokens line)) with
            | Some t => streq t (lit "&")
            | None => false
            end).
  - destruct (truthy (backgroundAllowed g1)); reflexivity.
  - assert (H : (length (stored_tokens (strtok_tokens line)) <? bufsize)%nat = true)
      by (apply Nat.ltb_lt; lia).
    rewrite H. reflexivity.
Qed.

Lemma short_lines_fit_the_vector_witness :
  fst (shell_split_line (lit "wc -l < in.txt > out.txt &" ++ [NL]) initial_shell)
  = Ret [lit "wc"; lit "-l"].
Proof.
  rewrite (short_lines_fit_the_vector (lit "wc -l < in.txt > out.txt &" ++ [NL])
             initial_shell);
    [reflexivity|vm_compute; lia].
Defined.

Lemma split_loop_plain (rest : list cstring) :
  forall (tokens : list cstring) (bufsize : nat) (g : shell) (k : nat),
    forallb (fun t => negb (is_redirect t)) rest = true ->
    rest <> [] ->
    (bufsize = TOK_BUFFSIZE * S k)%nat ->
    (TOK_BUFFSIZE * k <= length tokens <= TOK_BUFFSIZE * S k)%nat ->
    exists k',
      split_loop rest tokens bufsize g = (tokens ++ rest, (TOK_BUFFSIZE * S k')%nat, g) /\
      (TOK_BUFFSIZE * k' < length (tokens ++ rest) <= TOK_BUFFSIZE * S k')%nat.
Proof.
  induction rest as [|t rest IH]; intros tokens bufsize g k Hplain Hne Hbuf Hpos;
    [congruence|].
  cbn [forallb] in Hplain. apply andb_prop in Hplain as [Ht Hplain].
  apply negb_true_iff in Ht. unfold is_redirect in Ht.
  apply orb_false_elim in Ht as [Ht1 Ht2].
  rewrite split_loop_cons, Ht1, Ht2. unfold grow, TOK_BUFFSIZE in *.
  destruct (bufsize <=? length tokens)%nat eqn:E;
    [apply Nat.leb_le in E|apply Nat.leb_gt in E].
  - destruct rest as [|t' rest].
    + exists (S k). cbn [split_loop]. rewrite length_app. cbn [length].
      split; [f_equal; f_equal; lia|lia].
    + destruct (IH (tokens ++ [t]) (bufsize + 64)%nat g (S k) Hplain
                  ltac:(discriminate) ltac:(lia)
                  ltac:(rewrite length_app; cbn [length]; lia)) as (k' & H1 & H2).
      exists k'. rewrite <- app_assoc in H1, H2. split; [exact H1|exact H2].
  - destruct rest as [|t' rest].
    + exists k. cbn [split_loop]. rewrite length_app. cbn [length].
      split; [f_equal; f_equal; lia|lia].
    + destruct (IH (tokens ++ [t]) bufsize g k Hplain
                  ltac:(discriminate) ltac:(lia)
                  ltac:(rewrite length_app; cbn [length]; lia)) as (k' & H1 & H2).
      exists k'. rewrite <- app_assoc in H1, H2. split; [exact H1|exact H2].
Qed.

(** X22: for a line without redirection tokens and without a closing [&],
    the closing [NULL] is stored behind the end of the array exactly when the
    number of arguments is a positive multiple of 64; in every other case the
    arguments are returned as split and only [isBackground] is reset. *)
Theorem terminator_overrun_exactly (line : cstring) (g : shell) :
  let toks := strtok_tokens line in
  forallb (fun t => negb (is_redirect t)) toks = true ->
  ends_with_ampersand toks = false ->
  (fst (shell_split_line line g) = Undefined <->
   (length toks <> 0 /\ length toks mod TOK_BUFFSIZE = 0)%nat) /\
  (fst (shell_split_line line g) <> Undefined ->
   shell_split_line line g = (Ret toks, set_isBackground 0 g)).
Proof.
  intros toks Hplain Hamp. subst toks. unfold shell_split_line.
  rewrite bind_modify, bind_get. unfold ends_with_ampersand in Hamp.
  destruct (strtok_tokens line) as [|t rest] eqn:Etok.
  { cbn. split; [split; [discriminate|intros [H _]; congruence]|reflexivity]. }
  rewrite <- Etok in *.
  destruct (split_loop_plain (strtok_tokens line) [] TOK_BUFFSIZE
              (set_isBackground 0 g) 0 Hplain
              ltac:(rewrite Etok; discriminate)
              ltac:(unfold TOK_BUFFSIZE; lia)
              ltac:(unfold TOK_BUFFSIZE; cbn [length]; lia)) as (k' & H1 & H2).
  cbn [app] in H1, H2. rewrite H1, bind_modify, Hamp.
  unfold TOK_BUFFSIZE in *.
  destruct (length (strtok_tokens line) <? 64 * S k')%nat eqn:E;
    [apply Nat.ltb_lt in E|apply Nat.ltb_ge in E].
  - split; [split; [discriminate|]|reflexivity].
    intros [_ Hmod]. apply Nat.Div0.mod_divides in Hmod as [q Hq]. lia.
  - split; [split; [intros _|reflexivity]|intros H; exfalso; apply H; reflexivity].
    split; [lia|]. apply Nat.Div0.mod_divides. exists (S k'). lia.
Qed.

Lemma terminator_overrun_exactly_witness :
  fst (shell_split_line (concat (replicate 128 (lit "a "))) initial_shell) = Undefined.
Proof.
  apply (terminator_overrun_exactly (concat (replicate 128 (lit "a "))) initial_shell).
  - vm_compute. reflexivity.
  - vm_compute. reflexivity.
  - vm_compute. split; [discriminate|reflexivity].
Defined.
